(** * morph-frontend: wallet session, balance reader and faucet writer

    A shallow embedding of the three view components of the application
    (App.tsx, components/Balances.tsx, components/Faucet.tsx) and of the
    library function [formatUnits] they call, with the properties of the
    interaction contract proved over them.

    A React function component is embedded as
    - a record of the values its hooks return at one render,
    - a record of its own [useState] cells,
    - a pure [render] function of the two, and
    - one function per effect body and per event handler, returning the
      state updates and the requests they issue. *)

From Stdlib Require Import ZArith String Ascii List Bool Lia.
Import ListNotations.

Local Open Scope Z_scope.

(* ================================================================== *)
(** ** JavaScript values and string primitives *)

Module Js.

(** A JS string is handled as its list of characters while it is being
    sliced; the views carry [string]s. *)
Definition chars := list ascii.

(** A JS [number] as [formatUnits] is given it here: a small
    non-negative integer (a decoded [uint8], a length).  [NaN] is not a
    value of this type. *)
Inductive number : Type :=
| Num (n : nat).

(** The integer an argument position reads from a number. *)
Definition to_index (x : number) : nat :=
  match x with
  | Num n => n
  end.

(** [s.padStart(targetLength, c)] with a one-character filler. *)
Definition padStart (s : chars) (targetLength : number) (c : ascii) : chars :=
  repeat c (to_index targetLength - length s) ++ s.

(** [s.length - d].  Only used on a string already padded to [d]
    characters, where it is not negative. *)
Definition length_minus (s : chars) (d : number) : number :=
  match d with
  | Num n => Num (length s - n)
  end.

(** [s.slice(0, e)] and [s.slice(b)] for indices within the string. *)
Definition slice_to (s : chars) (e : number) : chars := firstn (to_index e) s.
Definition slice_from (s : chars) (b : number) : chars := skipn (to_index b) s.

Definition zero_char : ascii := "0"%char.

Fixpoint drop_zeros (s : chars) : chars :=
  match s with
  | c :: t => if Ascii.eqb c zero_char then drop_zeros t else s
  | [] => []
  end.

(** [s.replace(/(0+)$/, '')]: the trailing run of zeros is removed. *)
Definition replace_trailing_zeros (s : chars) : chars :=
  rev (drop_zeros (rev s)).

(** Truthiness of a string: only [''] is falsy. *)
Definition truthy (s : chars) : bool :=
  match s with
  | [] => false
  | _ => true
  end.

(** [a || b] on strings. *)
Definition or_else (a b : chars) : chars := if truthy a then a else b.

Definition digit_char (d : Z) : ascii := ascii_of_nat (48 + Z.to_nat d).

(** Decimal digits of a non-negative integer, most significant first.
    [fuel] bounds the number of divisions; [digits] below supplies
    enough of it. *)
Fixpoint digits_fuel (fuel : nat) (n : Z) (acc : chars) : chars :=
  let acc' := digit_char (n mod 10) :: acc in
  match fuel with
  | O => acc'
  | S f => if n <? 10 then acc' else digits_fuel f (n / 10) acc'
  end.

Definition digits (n : Z) : chars := digits_fuel (Z.to_nat (Z.log2 n)) n [].

(** [value.toString()] for a [bigint]. *)
Definition BigInt_toString (value : Z) : chars :=
  if value <? 0 then "-"%char :: digits (- value) else digits value.

(** [s.endsWith(suffix)] *)
Definition endsWith (s suffix : string) : bool :=
  let n := String.length s in
  let m := String.length suffix in
  if (m <=? n)%nat then String.eqb (substring (n - m) m s) suffix else false.

End Js.

(* ================================================================== *)
(** ** viem: [formatUnits] *)

Module Viem.
Import Js.

(** Modelled from the spec: [formatUnits(value, decimals)] of viem,
    imported by Balances.tsx (line 5), is a library dependency whose
    source is not under src/.  The spec describes it as "the raw integer
    balance scaled down by 10^decimals", exact, with no rounding, for
    [decimals] a non-negative integer; what the function does with any
    other [decimals] is not modelled.  The definition computes the
    scaling the way the library function does, statement by statement:
<<
    let display = value.toString()
    const negative = display.startsWith('-')
    if (negative) display = display.slice(1)
    display = display.padStart(decimals, '0')
    let [integer, fraction] = [
      display.slice(0, display.length - decimals),
      display.slice(display.length - decimals) ]
    fraction = fraction.replace(/(0+)$/, '')
    return `${negative ? '-' : ''}${integer || '0'}${
      fraction ? `.${fraction}` : ''}`
>> *)
Definition formatUnits_chars (value : Z) (decimals : number) : chars :=
  let display := BigInt_toString value in
  let negative := match display with
                  | c :: _ => Ascii.eqb c "-"%char
                  | [] => false
                  end in
  let display := if negative then skipn 1 display else display in
  let display := padStart display decimals zero_char in
  let cut := length_minus display decimals in
  let integer := slice_to display cut in
  let fraction := slice_from display cut in
  let fraction := replace_trailing_zeros fraction in
  (if negative then ["-"%char] else [])
    ++ or_else integer [zero_char]
    ++ (if truthy fraction then "."%char :: fraction else []).

Definition formatUnits (value : Z) (decimals : number) : string :=
  string_of_list_ascii (formatUnits_chars value decimals).

End Viem.

(* ================================================================== *)
(** ** wagmi: the values the hooks return *)

Module Wagmi.

Definition Address := string.

(** An entry of the configured chain list; [useAccount().chain] is
    [undefined] when the wallet is on a chain that is not configured. *)
Record Chain : Type := mkChain { id : Z }.

(** [useAccount()], the three fields the components read. *)
Record UseAccountReturn : Type := mkAccount {
  address : option Address;
  chain : option Chain;
  isConnected : bool
}.

(** One entry of the array [useReadContracts] returns: either
    [{ result, status: 'success' }] or [{ error, status: 'failure' }]. *)
Inductive CallResult (A : Type) : Type :=
| Success (result : A)
| Failure (error : string).
Arguments Success {A} result.
Arguments Failure {A} error.

(** [entry.result]: [undefined] on a failed call. *)
Definition result {A : Type} (r : CallResult A) : option A :=
  match r with
  | Success x => Some x
  | Failure _ => None
  end.

(** [data] of the batched read of Balances.tsx, lines 12-31: one entry
    per contract call, in the order [balanceOf], [decimals], [symbol]. *)
Record ReadContractsData : Type := mkData {
  balanceOf_call : CallResult Z;
  decimals_call : CallResult nat;
  symbol_call : CallResult string
}.

Definition succeeded {A : Type} (r : CallResult A) : bool :=
  match r with
  | Success _ => true
  | Failure _ => false
  end.

(** All three calls of the batch succeeded. *)
Definition all_succeeded (d : ReadContractsData) : bool :=
  succeeded (balanceOf_call d) && succeeded (decimals_call d)
  && succeeded (symbol_call d).

(** [useReadContracts(...)]: [data] is [undefined] until a batch has
    arrived. *)
Record UseReadContractsReturn : Type := mkRead {
  data : option ReadContractsData;
  isError : bool;
  isLoading : bool
}.

Definition CallResult_eq_dec {A : Type}
  (A_eq_dec : forall x y : A, {x = y} + {x <> y})
  (a b : CallResult A) : {a = b} + {a <> b}.
Proof. decide equality; apply string_dec. Defined.

Definition data_eq_dec (a b : option ReadContractsData) : {a = b} + {a <> b}.
Proof.
  decide equality. decide equality.
  - apply CallResult_eq_dec, string_dec.
  - apply CallResult_eq_dec, Nat.eq_dec.
  - apply CallResult_eq_dec, Z.eq_dec.
Defined.

End Wagmi.

(* ================================================================== *)
(** ** React: dependency arrays *)

Module React.

(** An effect with a dependency array runs after the first render and
    after every render at which a dependency differs from its value at
    the previous render.  [prev] is [None] before the first render. *)
Definition deps_changed {D : Type} (eq_dec : forall x y : D, {x = y} + {x <> y})
  (prev : option D) (cur : D) : bool :=
  match prev with
  | None => true
  | Some p => if eq_dec p cur then false else true
  end.

End React.

(* ================================================================== *)
(** ** components/Balances.tsx *)

Module Balances.
Import Wagmi.

(** [const [balance, setBalance] = useState<string>('0')] *)
Record State : Type := mkState { balance : string }.

Definition init : State := {| balance := "0" |}.

(** The hook values of one render: [useAccount()] (line 8) and
    [useReadContracts(...)] (lines 12-31). *)
Record Hooks : Type := mkHooks {
  account : UseAccountReturn;
  read : UseReadContractsReturn
}.

(** What the body of the effect does.  [FormatsNaN]: it calls
    [formatUnits(rawBalance, NaN)], a call of the library that this
    development does not model. *)
Inductive EffectOutcome : Type :=
| Skip
| SetBalance (formatted : string)
| Throws
| FormatsNaN.

(** The effect of lines 33-41 ([console.log] left out).  The entries
    [data[0]] and [data[1]] are objects, hence truthy, so the guard is
    [data] being defined.  [data[0].result] is [undefined] when
    [balanceOf] failed, and [formatUnits] starts with
    [value.toString()], a [TypeError] on [undefined].
    [data[1].result] is [undefined] when [decimals] failed, and
    [Number(undefined)] is [NaN]. *)
Definition effect (data : option ReadContractsData) : EffectOutcome :=
  match data with
  | Some d =>
      match result (balanceOf_call d) with
      | Some rawBalance =>
          match result (decimals_call d) with
          | Some n =>
              let decimals := Js.Num n in
              let formatted := Viem.formatUnits rawBalance decimals in
              SetBalance formatted
          | None => FormatsNaN
          end
      | None => Throws
      end
  | None => Skip
  end.

(** What the component returns (lines 43-60). *)
Inductive View : Type :=
| Null
| LoadingBalance
| ErrorFetching
| BalanceCard (text : string).

Definition render (h : Hooks) (s : State) : View :=
  if negb (isConnected (account h)) then Null
  else if isLoading (read h) then LoadingBalance
  else if isError (read h) then ErrorFetching
  else BalanceCard (balance s ++ " IT").

(** A mounted instance: its state and the dependency array [[data]] of
    the last render ([None] before the first one). *)
Record Instance : Type := mkInstance {
  state : State;
  deps : option (option ReadContractsData)
}.

Definition mount : Instance := {| state := init; deps := None |}.

(** One render pass with hook values [h], effects flushed: the effect
    runs if [data] changed, and its [setBalance] is applied.  [None]
    when the pass has no outcome here: the effect throws, or it calls
    [formatUnits] with [NaN]. *)
Definition commit (h : Hooks) (i : Instance) : option Instance :=
  let d := data (read h) in
  if React.deps_changed data_eq_dec (deps i) d then
    match effect d with
    | Skip => Some {| state := state i; deps := Some d |}
    | SetBalance formatted =>
        Some {| state := {| balance := formatted |}; deps := Some d |}
    | Throws => None
    | FormatsNaN => None
    end
  else Some i.

(** The successive hook values of a mounted instance, oldest first. *)
Fixpoint commits (hs : list Hooks) (i : Instance) : option Instance :=
  match hs with
  | [] => Some i
  | h :: t =>
      match commit h i with
      | Some i' => commits t i'
      | None => None
      end
  end.

(** What is on screen after the pass with hook values [h]. *)
Definition view (h : Hooks) (i : Instance) : View := render h (state i).

(** The renders of one pass, in order.  The body first returns with
    the state as it is (lines 43-60 run before the effect of lines
    33-41); if the effect then sets the balance cell to another text,
    the component renders again. *)
Definition frames (h : Hooks) (i : Instance) : list View :=
  render h (state i)
  :: match commit h i with
     | Some i' =>
         if String.eqb (balance (state i)) (balance (state i')) then []
         else [render h (state i')]
     | None => []
     end.

(** The balance cell holds what the effect computed from the [data] of
    the last render, if that was defined. *)
Definition coherent (i : Instance) : Prop :=
  forall d, deps i = Some (Some d) -> effect (Some d) = SetBalance (balance (state i)).

End Balances.

(* ================================================================== *)
(** ** components/Faucet.tsx *)

Module Faucet.

(** The values the [message] cell can hold.  [onError] declares its
    argument [any]: wagmi passes an [Error] object, whose [message]
    property is the reason text (empty when there is none); the
    annotation also lets a plain string through. *)
Inductive any : Type :=
| Str (s : string)
| ErrorObject (message : string).

(** JS truthiness: [''] is falsy, objects are truthy. *)
Definition truthy (v : any) : bool :=
  match v with
  | Str s => negb (String.eqb s "")
  | ErrorObject _ => true
  end.

(** [v.message]: the property of an [Error]; [undefined] on a string. *)
Definition message_of (v : any) : option string :=
  match v with
  | Str _ => None
  | ErrorObject m => Some m
  end.

(** [useState<boolean>(false)] and [useState<string>('')] (lines 8-9).
    The second cell holds whatever [setMessage] was given. *)
Record State : Type := mkState {
  loading : bool;
  message : any
}.

Definition init : State := {| loading := false; message := Str "" |}.

(** The hook values of one render (lines 6, 12-20); [claimWrite] is
    called through [?.], so it may be [undefined]. *)
Record Hooks : Type := mkHooks {
  isConnected : bool;
  isSimulating : bool;
  isWriting : bool;
  claimWrite_defined : bool
}.

(** A call of [writeContract] with the [claim] request of lines 25-30. *)
Inductive Request : Type :=
| WriteContract (functionName : string).

(** The two state setters. *)
Definition setLoading (b : bool) (s : State) : State :=
  {| loading := b; message := message s |}.

Definition setMessage (v : any) (s : State) : State :=
  {| loading := loading s; message := v |}.

(** [handleClaim] (lines 22-40): both setters run before [claimWrite]
    is called; the callbacks are registered with the request. *)
Definition handleClaim (h : Hooks) (s : State) : State * list Request :=
  let s := setLoading true s in
  let s := setMessage (Str "") s in
  (s, if claimWrite_defined h then [WriteContract "claim"] else []).

(** [onSuccess] (lines 31-34). *)
Definition onSuccess (s : State) : State :=
  let s := setMessage (Str "Claim successful!") s in
  setLoading false s.

(** [onError] (lines 35-38). *)
Definition onError (error : any) (s : State) : State :=
  let s := setMessage error s in
  setLoading false s.

(** The [onError] of the tutorial shipped with the repository
    (tutorial.md, step 10; tutorial-part-1.md; tutorial-part-2.md):
    [setMessage(error.message || 'Claim failed')], then
    [setLoading(false)]. *)
Definition onError_tutorial (error : any) (s : State) : State :=
  let shown := match message_of error with
               | Some m => if String.eqb m "" then "Claim failed"%string else m
               | None => "Claim failed"%string
               end in
  let s := setMessage (Str shown) s in
  setLoading false s.

(** [disabled={!isConnected || loading || isSimulating}] (line 47). *)
Definition disabled (h : Hooks) (s : State) : bool :=
  negb (isConnected h) || loading s || isSimulating h.

(** What the component returns (lines 42-55): the button, the message
    paragraph with its child when [message] is truthy, and the
    "Processing..." paragraph. *)
Record View : Type := mkView {
  button_disabled : bool;
  button_label : string;
  message_paragraph : option any;
  processing_paragraph : bool
}.

Definition render (h : Hooks) (s : State) : View :=
  {| button_disabled := disabled h s;
     button_label := if loading s || isSimulating h
                     then "Claiming..." else "Claim 1000 IT";
     message_paragraph := if truthy (message s) then Some (message s) else None;
     processing_paragraph := isWriting h || isSimulating h |}.

(** The component together with the writes it has handed to the wallet
    that have not called back yet. *)
Record World : Type := mkWorld {
  hooks : Hooks;
  state : State;
  outstanding : list Request
}.

Definition start (h : Hooks) : World :=
  {| hooks := h; state := init; outstanding := [] |}.

(** What can happen to a mounted instance: the hooks return new values,
    the user clicks the button, or the oldest outstanding write calls
    back with success or with an error. *)
Inductive Event : Type :=
| HooksChanged (h : Hooks)
| Click
| Succeeded
| Failed (error : any).

Definition step (e : Event) (w : World) : World :=
  match e with
  | HooksChanged h =>
      {| hooks := h; state := state w; outstanding := outstanding w |}
  | Click =>
      (* a disabled button does not dispatch [onClick] *)
      if button_disabled (render (hooks w) (state w)) then w
      else
        let (s, reqs) := handleClaim (hooks w) (state w) in
        {| hooks := hooks w; state := s; outstanding := outstanding w ++ reqs |}
  | Succeeded =>
      match outstanding w with
      | [] => w
      | _ :: rest =>
          {| hooks := hooks w; state := onSuccess (state w); outstanding := rest |}
      end
  | Failed error =>
      match outstanding w with
      | [] => w
      | _ :: rest =>
          {| hooks := hooks w; state := onError error (state w);
             outstanding := rest |}
      end
  end.

Definition run (es : list Event) (w : World) : World :=
  fold_left (fun w e => step e w) es w.

Definition view (w : World) : View := render (hooks w) (state w).

(** At most the one claim is with the wallet, the busy flag is up while
    it is, and the message is [''] while the flag is up. *)
Definition busy_invariant (w : World) : Prop :=
  (outstanding w = []
   \/ (outstanding w = [WriteContract "claim"] /\ loading (state w) = true))
  /\ (loading (state w) = true -> message (state w) = Str "").

End Faucet.

(* ================================================================== *)
(** ** App.tsx *)

Module App.
Import Wagmi.

(** The hook values of one render (lines 9-10).  [switchChain] is a
    function; only its identity matters, as a dependency. *)
Record Hooks : Type := mkHooks {
  account : UseAccountReturn;
  switchChain : nat
}.

Definition target : Z := 2810.

(** [chain?.id] *)
Definition chain_id (h : Hooks) : option Z := option_map id (chain (account h)).

(** [x !== n] and [x === n] for [x] a number or [undefined]. *)
Definition strict_ne (x : option Z) (n : Z) : bool :=
  match x with
  | Some i => negb (i =? n)
  | None => true
  end.

Definition strict_eq (x : option Z) (n : Z) : bool :=
  match x with
  | Some i => i =? n
  | None => false
  end.

(** A call of [switchChain({ chainId }, {})]. *)
Inductive Request : Type :=
| SwitchChain (chainId : Z).

(** The body of the effect (lines 13-20). *)
Definition effect (h : Hooks) : list Request :=
  if isConnected (account h) && strict_ne (chain_id h) 2810
  then [SwitchChain 2810]
  else [].

(** The dependency array [[isConnected, chain, switchChain]] (line 21). *)
Definition Deps : Type := (bool * option Chain * nat)%type.

Definition deps_of (h : Hooks) : Deps :=
  (isConnected (account h), chain (account h), switchChain h).

Definition Deps_eq_dec (a b : Deps) : {a = b} + {a <> b}.
Proof. repeat decide equality. Defined.

(** The children of the top-level [div] (lines 23-39). *)
Inductive Child : Type :=
| Heading
| ConnectButton
| WrongNetworkMessage
| BalancesView
| FaucetView.

Definition render (h : Hooks) : list Child :=
  [Heading; ConnectButton]
    ++ (if isConnected (account h) && strict_ne (chain_id h) 2810
        then [WrongNetworkMessage] else [])
    ++ (if isConnected (account h) && strict_eq (chain_id h) 2810
        then [BalancesView; FaucetView] else []).

(** The three states of the session guard, read off the hook values. *)
Inductive Session : Type :=
| Disconnected
| WrongNetwork
| ReadyState.

Definition session (h : Hooks) : Session :=
  if negb (isConnected (account h)) then Disconnected
  else if strict_eq (chain_id h) 2810 then ReadyState
  else WrongNetwork.

(** One render pass: the requests the effect issues, given the
    dependencies of the previous render. *)
Definition commit (prev : option Deps) (h : Hooks) : list Request :=
  if React.deps_changed Deps_eq_dec prev (deps_of h) then effect h else [].

(** The requests issued over successive renders, oldest first. *)
Fixpoint commits (prev : option Deps) (hs : list Hooks) : list Request :=
  match hs with
  | [] => []
  | h :: t => commit prev h ++ commits (Some (deps_of h)) t
  end.

End App.

(* ================================================================== *)
(** ** The read layer behind [useReadContracts] *)

Module ReadLayer.
Import Wagmi.

(** Modelled from the spec: the query layer behind [useReadContracts]
    (wagmi over its query cache) is a library dependency whose source
    is not under src/.  After the spec, sections 4.2, 5 and 9: the
    batched read is a function of the Account; it is re-invoked whenever
    the Account changes; a result whose input no longer matches the
    current input is ignored on arrival; the component is told that the
    batch is loading, that it failed, or its data.  [Loaded] keeps the
    account the batch was read for. *)
Inductive Query : Type :=
| Pending
| Errored
| Loaded (key : Address) (d : ReadContractsData).

(** The wallet's current Account, the query of the read layer for it,
    and the mounted Balances instance. *)
Record World : Type := mkWorld {
  current : option Address;
  query : Query;
  instance : Balances.Instance
}.

(** The Account changes (to another address, or to none), or the batch
    read for account [a] resolves: with its data, or as failed. *)
Inductive Event : Type :=
| AccountChanged (a : option Address)
| Arrived (a : Address) (outcome : option ReadContractsData).

Definition is_some {A : Type} (o : option A) : bool :=
  match o with
  | Some _ => true
  | None => false
  end.

(** Modelled from the spec: what the two hooks return to Balances in
    world state ([current], [query]); a wallet is connected exactly
    when an Account is present. *)
Definition hooks_of (cur : option Address) (q : Query) : Balances.Hooks :=
  {| Balances.account :=
       {| address := cur; chain := None; isConnected := is_some cur |};
     Balances.read :=
       {| data := match q with Loaded _ d => Some d | _ => None end;
          isError := match q with Errored => true | _ => false end;
          isLoading := match q with Pending => true | _ => false end |} |}.

Definition option_address_eq_dec (a b : option Address) : {a = b} + {a <> b}.
Proof. decide equality; apply string_dec. Defined.

(** Re-render Balances with the hook values of ([cur], [q]). *)
Definition rerender (cur : option Address) (q : Query)
  (i : Balances.Instance) : option World :=
  match Balances.commit (hooks_of cur q) i with
  | Some i' => Some {| current := cur; query := q; instance := i' |}
  | None => None
  end.

(** Modelled from the spec: the transitions of the read layer, each
    followed by a render pass of Balances.  [None] when the effect of
    Balances throws. *)
Definition step (e : Event) (w : World) : option World :=
  match e with
  | AccountChanged a =>
      if option_address_eq_dec a (current w)
      then Some w
      else rerender a Pending (instance w)
  | Arrived a outcome =>
      if option_address_eq_dec (Some a) (current w)
      then rerender (current w)
             (match outcome with
              | Some d => Loaded a d
              | None => Errored
              end)
             (instance w)
      else Some w
  end.

Fixpoint run (es : list Event) (w : World) : option World :=
  match es with
  | [] => Some w
  | e :: t =>
      match step e w with
      | Some w' => run t w'
      | None => None
      end
  end.

(** The application right after Balances has mounted with no wallet
    connected. *)
Definition boot : World :=
  {| current := None; query := Pending;
     instance := {| Balances.state := Balances.init;
                    Balances.deps := Some None |} |}.

(** The hook values of the render pass that event [e] causes in world
    [w]; [None] when it causes none (the Account does not change, or the
    result is for another account). *)
Definition pass_of (e : Event) (w : World) : option Balances.Hooks :=
  match e with
  | AccountChanged a =>
      if option_address_eq_dec a (current w) then None
      else Some (hooks_of a Pending)
  | Arrived a outcome =>
      if option_address_eq_dec (Some a) (current w)
      then Some (hooks_of (current w)
                   (match outcome with
                    | Some d => Loaded a d
                    | None => Errored
                    end))
      else None
  end.

(** What Balances returns, render by render, while event [e] is
    handled in world [w]: the render before the effect of the pass
    included. *)
Definition shown (e : Event) (w : World) : list Balances.View :=
  match pass_of e w with
  | Some h => Balances.frames h (instance w)
  | None => []
  end.

(** All the renders along a sequence of events, oldest first. *)
Fixpoint screen (es : list Event) (w : World) : list Balances.View :=
  match es with
  | [] => []
  | e :: t =>
      shown e w ++ match step e w with
                   | Some w' => screen t w'
                   | None => []
                   end
  end.

(** The last render of the last pass, effects flushed. *)
Definition settled_view (w : World) : Balances.View :=
  Balances.view (hooks_of (current w) (query w)) (instance w).

(** In a reachable world the balance cell follows the [data] of the
    query, and loaded data was read for the current account. *)
Definition settled (w : World) : Prop :=
  Balances.coherent (instance w)
  /\ Balances.deps (instance w)
     = Some (data (Balances.read (hooks_of (current w) (query w))))
  /\ (forall k d, query w = Loaded k d -> current w = Some k).

End ReadLayer.

(* ================================================================== *)
(** ** Reading a displayed amount back *)

Module Reading.

(** The value of a decimal digit character. *)
Definition digit_value (c : ascii) : option Z :=
  let n := nat_of_ascii c in
  if ((48 <=? n) && (n <=? 57))%nat then Some (Z.of_nat n - 48) else None.

(** The natural number a string of decimal digits writes. *)
Fixpoint digits_value (acc : Z) (s : list ascii) : option Z :=
  match s with
  | [] => Some acc
  | c :: t =>
      match digit_value c with
      | Some d => digits_value (10 * acc + d) t
      | None => None
      end
  end.

(** The part before the first ['.'] and the part after it, if any. *)
Fixpoint split_at_dot (s : list ascii) : list ascii * option (list ascii) :=
  match s with
  | [] => ([], None)
  | c :: t =>
      if Ascii.eqb c "."%char then ([], Some t)
      else let (i, f) := split_at_dot t in (c :: i, f)
  end.

(** The spec's "raw integer balance scaled down by 10^decimals", read
    the other way: [amount text decimals] is the integer [raw] for which
    the numeral [text] writes exactly [raw / 10^decimals].  A numeral is
    a non-empty integer part, optionally followed by ['.'] and at most
    [decimals] fraction digits. *)
Definition amount (text : string) (decimals : nat) : option Z :=
  let (i, f) := split_at_dot (list_ascii_of_string text) in
  let f := match f with Some f => f | None => [] end in
  match i with
  | [] => None
  | _ =>
      match digits_value 0 i, digits_value 0 f with
      | Some iv, Some fv =>
          if (List.length f <=? decimals)%nat
          then Some (iv * 10 ^ Z.of_nat decimals
                     + fv * 10 ^ Z.of_nat (decimals - List.length f))
          else None
      | _, _ => None
      end
  end.

(** Strings of decimal digits and the number they write, for the proofs. *)
Definition all_digits (s : list ascii) : Prop :=
  Forall (fun c => exists d, 0 <= d < 10 /\ c = Js.digit_char d) s.

Definition written (s : list ascii) : Z :=
  fold_left (fun a c => 10 * a + (Z.of_nat (nat_of_ascii c) - 48)) s 0.

End Reading.

(* ================================================================== *)
(** ** main.tsx: the wagmi configuration *)

Module Config.
Import Wagmi.

(** The custom chain of main.tsx (lines 76-92). *)
Record NativeCurrency : Type := mkCurrency {
  currency_name : string;
  currency_symbol : string;
  currency_decimals : nat
}.

Record ChainConfig : Type := mkChainConfig {
  chain_id : Z;
  chain_name : string;
  network : string;
  nativeCurrency : NativeCurrency;
  rpc_url : string;
  explorer_name : string;
  explorer_url : string;
  testnet : bool
}.

Definition morphTestnet : ChainConfig :=
  {| chain_id := 2810;
     chain_name := "Morph Holesky";
     network := "morphTestnet";
     nativeCurrency := {| currency_name := "Ether"; currency_symbol := "ETH";
                          currency_decimals := 18 |};
     rpc_url := "https://rpc-quicknode-holesky.morphl2.io";
     explorer_name := "Blockscout";
     explorer_url := "https://explorer-holesky.morphl2.io";
     testnet := true |}.

(** The chain as [useAccount().chain] carries it. *)
Definition as_chain (c : ChainConfig) : Chain := {| id := chain_id c |}.

(** [mainnet] and [sepolia] of wagmi/chains (line 72), by their ids. *)
Definition mainnet : Chain := {| id := 1 |}.
Definition sepolia : Chain := {| id := 11155111 |}.

(** [createConfig({ chains, transports, connectors })] (lines 102-110):
    the chain list, and the keys of the [transports] object in the order
    they are written. *)
Definition chains : list Chain := [as_chain morphTestnet; mainnet; sepolia].

Definition transports : list Z := [id mainnet; id sepolia; chain_id morphTestnet].

(** [initialChain={morphTestnet}] (line 117). *)
Definition initialChain : ChainConfig := morphTestnet.

(** [useAccount().chain] for a wallet on chain [chainId]: wagmi looks
    the id up in the configured list,
    [config.chains.find(c => c.id === chainId)]. *)
Definition chain_of (chainId : Z) : option Chain :=
  find (fun c => id c =? chainId) chains.

(** What [useAccount()] returns to App for a connected wallet. *)
Definition connected_on (a : Address) (chainId : Z) : UseAccountReturn :=
  {| address := Some a; chain := chain_of chainId; isConnected := true |}.

End Config.

(* ================================================================== *)
(** ** App.tsx with its children *)

Module Page.
Import Wagmi.

(** The hook values of one render of the whole tree.  Balances and
    Faucet call [useAccount()] under the same provider as App
    (main.tsx, lines 113-123), so the three read one account. *)
Record Hooks : Type := mkHooks {
  account : UseAccountReturn;
  switchChain : nat;
  read : UseReadContractsReturn;
  isSimulating : bool;
  isWriting : bool;
  claimWrite_defined : bool
}.

Definition app_hooks (h : Hooks) : App.Hooks :=
  {| App.account := account h; App.switchChain := switchChain h |}.

Definition balances_hooks (h : Hooks) : Balances.Hooks :=
  {| Balances.account := account h; Balances.read := read h |}.

Definition faucet_hooks (h : Hooks) : Faucet.Hooks :=
  {| Faucet.isConnected := isConnected (account h);
     Faucet.isSimulating := isSimulating h;
     Faucet.isWriting := isWriting h;
     Faucet.claimWrite_defined := claimWrite_defined h |}.

(** The children of App's [div] with [<Balances />] and [<Faucet />]
    (App.tsx, lines 34-35) replaced by what they return. *)
Inductive Node : Type :=
| Heading
| ConnectButton
| WrongNetworkMessage
| BalancesNode (v : Balances.View)
| FaucetNode (v : Faucet.View).

Definition expand (h : Hooks) (bs : Balances.State) (fs : Faucet.State)
  (c : App.Child) : Node :=
  match c with
  | App.Heading => Heading
  | App.ConnectButton => ConnectButton
  | App.WrongNetworkMessage => WrongNetworkMessage
  | App.BalancesView => BalancesNode (Balances.render (balances_hooks h) bs)
  | App.FaucetView => FaucetNode (Faucet.render (faucet_hooks h) fs)
  end.

Definition render (h : Hooks) (bs : Balances.State) (fs : Faucet.State)
  : list Node :=
  map (expand h bs fs) (App.render (app_hooks h)).

End Page.

(* ================================================================== *)
(** ** The renders of App that can ask for a switch *)

Module AppLog.
Import Wagmi.

(** The condition of App.tsx, lines 13 and 27:
    [isConnected && chain?.id !== 2810]. *)
Definition guard (h : App.Hooks) : bool :=
  isConnected (App.account h) && App.strict_ne (App.chain_id h) 2810.

(** Render [h] is a transition into the wrong-network state: the
    condition holds at [h] and did not hold at the previous render
    [prev], or [h] is the first render. *)
Definition enters (prev : option App.Hooks) (h : App.Hooks) : bool :=
  guard h
  && match prev with
     | Some p => negb (guard p)
     | None => true
     end.

(** Render [h] stays in the wrong-network state with a dependency of
    the effect changed since the previous render. *)
Definition changes_within (prev : option App.Hooks) (h : App.Hooks) : bool :=
  guard h
  && match prev with
     | Some p =>
         guard p
         && (if App.Deps_eq_dec (App.deps_of p) (App.deps_of h)
             then false else true)
     | None => false
     end.

(** How many renders of a sequence satisfy [f] with respect to their
    predecessor. *)
Fixpoint count (f : option App.Hooks -> App.Hooks -> bool)
  (prev : option App.Hooks) (hs : list App.Hooks) : nat :=
  match hs with
  | [] => 0
  | h :: t => (if f prev h then 1 else 0) + count f (Some h) t
  end.

End AppLog.

(* ================================================================== *)
(** ** The writes a Faucet instance issues over time *)

Module FaucetLog.
Import Faucet.

(** The requests event [e] hands to the wallet in world [w]: those of
    [handleClaim], when the click reaches it. *)
Definition issued_by (e : Event) (w : World) : list Request :=
  match e with
  | Click =>
      if button_disabled (render (hooks w) (state w)) then []
      else snd (handleClaim (hooks w) (state w))
  | _ => []
  end.

(** All requests issued along a sequence of events, oldest first. *)
Fixpoint writes (es : list Event) (w : World) : list Request :=
  match es with
  | [] => []
  | e :: t => issued_by e w ++ writes t (step e w)
  end.

Definition is_callback (e : Event) : bool :=
  match e with
  | Succeeded | Failed _ => true
  | _ => false
  end.

(** The button cannot be clicked under hook values [h], whatever the
    state: no wallet, or the simulation is in flight. *)
Definition blocked (h : Hooks) : bool :=
  negb (isConnected h) || isSimulating h.

Definition keeps_blocked (e : Event) : Prop :=
  match e with
  | HooksChanged h => blocked h = true
  | _ => True
  end.

End FaucetLog.

(* ================================================================== *)
(** * Properties *)

Example formatUnits_1000 :
  Viem.formatUnits 1000000000000000000000 (Js.Num 18) = "1000"%string.
Proof. reflexivity. Qed.

Example formatUnits_small :
  Viem.formatUnits 5 (Js.Num 18) = "0.000000000000000005"%string.
Proof. reflexivity. Qed.

Example formatUnits_negative :
  Viem.formatUnits (-1500) (Js.Num 3) = "-1.5"%string.
Proof. reflexivity. Qed.

Example amount_small :
  Reading.amount "0.000000000000000005" 18 = Some 5.
Proof. reflexivity. Qed.

Example amount_1_5 :
  Reading.amount "1.5" 18 = Some 1500000000000000000.
Proof. reflexivity. Qed.

(* ------------------------------------------------------------------ *)
(** ** Session and network guard (App.tsx) *)

Section NetworkGuard.
Import Wagmi App.

Lemma strict_eq_true (x : option Z) (n : Z) :
  strict_eq x n = true <-> x = Some n.
Proof.
  destruct x as [i|]; simpl.
  - rewrite Z.eqb_eq. split; [intros ->; reflexivity | intros [= ->]; reflexivity].
  - split; discriminate.
Qed.

Lemma strict_ne_negb (x : option Z) (n : Z) :
  strict_ne x n = negb (strict_eq x n).
Proof. destruct x; reflexivity. Qed.

Lemma session_wrong_network (h : Hooks) :
  session h = WrongNetwork <->
  isConnected (account h) = true /\ chain_id h <> Some target.
Proof.
  unfold session.
  destruct (isConnected (account h)); simpl.
  - destruct (strict_eq (chain_id h) 2810) eqn:E.
    + apply strict_eq_true in E. split; [discriminate | intros [_ H]; contradiction].
    + split; [intros _; split; [reflexivity|] | reflexivity].
      intros H. unfold target in H. apply strict_eq_true in H. congruence.
  - split; [discriminate | intros [H _]; discriminate].
Qed.

Lemma effect_wrong_network (h : Hooks) :
  session h = WrongNetwork -> effect h = [SwitchChain 2810].
Proof.
  unfold session, effect. rewrite strict_ne_negb.
  destruct (isConnected (account h)); simpl; [|discriminate].
  destruct (strict_eq (chain_id h) 2810); simpl; [discriminate | reflexivity].
Qed.

Lemma effect_at_target (h : Hooks) :
  chain_id h = Some target -> effect h = [].
Proof.
  unfold effect. intros ->. simpl. rewrite andb_false_r. reflexivity.
Qed.

Lemma commit_same_deps (h : Hooks) :
  commit (Some (deps_of h)) h = [].
Proof.
  unfold commit, React.deps_changed.
  destruct (Deps_eq_dec (deps_of h) (deps_of h)); [reflexivity | contradiction].
Qed.

Lemma commits_rerender (h : Hooks) (n : nat) :
  commits (Some (deps_of h)) (repeat h n) = [].
Proof.
  induction n as [|n IH]; simpl; [reflexivity|].
  rewrite commit_same_deps, IH. reflexivity.
Qed.

Lemma commits_at_target (hs : list Hooks) :
  Forall (fun k => chain_id k = Some target) hs ->
  forall prev, commits prev hs = [].
Proof.
  induction 1 as [|k ks Hk _ IH]; intros prev; simpl; [reflexivity|].
  rewrite IH, app_nil_r. unfold commit.
  rewrite (effect_at_target k Hk). destruct React.deps_changed; reflexivity.
Qed.

Lemma commits_rerender_then (h : Hooks) (n : nat) (hs : list Hooks) :
  commits (Some (deps_of h)) (repeat h n ++ hs) = commits (Some (deps_of h)) hs.
Proof.
  induction n as [|n IH]; simpl; [reflexivity|].
  rewrite commit_same_deps, IH. reflexivity.
Qed.

Lemma commit_entering (prev : option Deps) (h : Hooks) :
  session h = WrongNetwork ->
  (forall p, prev = Some (deps_of p) -> session p <> WrongNetwork) ->
  commit prev h = [SwitchChain 2810].
Proof.
  intros Hw Hprev. unfold commit, React.deps_changed.
  destruct prev as [d|]; [|apply effect_wrong_network, Hw].
  destruct (Deps_eq_dec d (deps_of h)) as [->|_].
  - exfalso. apply (Hprev h eq_refl), Hw.
  - apply effect_wrong_network, Hw.
Qed.

End NetworkGuard.

(** C1.  While connected: when the chain id is not the target 2810 (the
    chain may also be unknown), App renders the wrong-network message and
    neither the balance view nor the faucet view; when the chain id is
    2810, it renders the balance view and the faucet view (and not the
    message). *)
Theorem App_network_guard (h : App.Hooks) :
  Wagmi.isConnected (App.account h) = true ->
  (App.chain_id h <> Some App.target ->
     App.session h = App.WrongNetwork
     /\ App.render h = [App.Heading; App.ConnectButton; App.WrongNetworkMessage]
     /\ In App.WrongNetworkMessage (App.render h)
     /\ ~ In App.BalancesView (App.render h)
     /\ ~ In App.FaucetView (App.render h))
  /\ (App.chain_id h = Some App.target ->
     App.render h = [App.Heading; App.ConnectButton; App.BalancesView; App.FaucetView]
     /\ In App.BalancesView (App.render h)
     /\ In App.FaucetView (App.render h)
     /\ ~ In App.WrongNetworkMessage (App.render h)).
Proof.
  intros Hc. split.
  - intros Hne.
    assert (Hs : App.session h = App.WrongNetwork)
      by (apply session_wrong_network; split; assumption).
    assert (E : App.strict_eq (App.chain_id h) 2810 = false).
    { destruct (App.strict_eq (App.chain_id h) 2810) eqn:E; [|reflexivity].
      apply strict_eq_true in E. contradiction. }
    assert (R : App.render h = [App.Heading; App.ConnectButton; App.WrongNetworkMessage]).
    { unfold App.render. rewrite strict_ne_negb, Hc, E. reflexivity. }
    rewrite R. repeat split; try assumption.
    + simpl. tauto.
    + simpl. intros [H|[H|[H|[]]]]; discriminate.
    + simpl. intros [H|[H|[H|[]]]]; discriminate.
  - intros He.
    assert (R : App.render h
                = [App.Heading; App.ConnectButton; App.BalancesView; App.FaucetView]).
    { unfold App.render. rewrite strict_ne_negb, Hc.
      apply strict_eq_true in He. unfold App.target in He. rewrite He. reflexivity. }
    rewrite R. repeat split.
    + simpl. tauto.
    + simpl. tauto.
    + simpl. intros [H|[H|[H|[H|[]]]]]; discriminate.
Qed.

Lemma App_network_guard_witness :
  let mainnet :=
    {| App.account := {| Wagmi.address := Some "0xA"%string;
                         Wagmi.chain := Some {| Wagmi.id := 1 |};
                         Wagmi.isConnected := true |};
       App.switchChain := 0%nat |} in
  App.render mainnet = [App.Heading; App.ConnectButton; App.WrongNetworkMessage].
Proof.
  intros mainnet.
  destruct (App_network_guard mainnet eq_refl) as [H _].
  apply H. discriminate.
Defined.

(** A render at which the session enters the wrong-network state
    issues one request; further renders with the same hook values issue
    none, and neither do renders at which the chain is the target. *)
Lemma switch_request_unchanged_hooks
  (prev : option App.Deps) (h : App.Hooks) (n : nat) (at_target : list App.Hooks) :
  App.session h = App.WrongNetwork ->
  (forall p, prev = Some (App.deps_of p) -> App.session p <> App.WrongNetwork) ->
  Forall (fun k => App.chain_id k = Some App.target) at_target ->
  App.commit prev h = [App.SwitchChain 2810]
  /\ App.commits (Some (App.deps_of h)) (repeat h n) = []
  /\ (forall prev', App.commits prev' at_target = [])
  /\ App.commits prev (h :: repeat h n ++ at_target) = [App.SwitchChain 2810].
Proof.
  intros Hw Hprev Ht.
  assert (E := commit_entering prev h Hw Hprev).
  repeat split.
  - exact E.
  - apply commits_rerender.
  - intros prev'. apply commits_at_target, Ht.
  - simpl. rewrite E, commits_rerender_then.
    rewrite (commits_at_target at_target Ht). reflexivity.
Qed.

Section RequestAccounting.
Import Wagmi App AppLog.

Lemma guard_by_deps (p h : Hooks) :
  deps_of p = deps_of h -> guard p = guard h.
Proof.
  unfold deps_of, guard, chain_id. intros [= -> -> _]. reflexivity.
Qed.

Lemma effect_by_guard (h : Hooks) :
  effect h = if guard h then [SwitchChain 2810] else [].
Proof. reflexivity. Qed.

(** One render: a request is issued exactly at an entry into the
    wrong-network state and at a dependency change within it. *)
Lemma commit_accounted (prev : option Hooks) (h : Hooks) :
  commit (option_map deps_of prev) h
  = if enters prev h || changes_within prev h then [SwitchChain 2810] else [].
Proof.
  unfold commit, React.deps_changed, enters, changes_within.
  rewrite effect_by_guard.
  destruct prev as [p|]; cbn [option_map].
  - destruct (Deps_eq_dec (deps_of p) (deps_of h)) as [E|_].
    + rewrite (guard_by_deps p h E).
      destruct (guard h); reflexivity.
    + destruct (guard h), (guard p); reflexivity.
  - destruct (guard h); reflexivity.
Qed.

Lemma enters_or_changes (prev : option Hooks) (h : Hooks) :
  enters prev h && changes_within prev h = false.
Proof.
  unfold enters, changes_within.
  destruct (guard h); [|reflexivity].
  destruct prev as [p|]; [|reflexivity].
  destruct (guard p); reflexivity.
Qed.

Lemma commits_accounted (hs : list Hooks) :
  forall prev,
    commits (option_map deps_of prev) hs
    = repeat (SwitchChain 2810)
        (count enters prev hs + count changes_within prev hs).
Proof.
  induction hs as [|h hs IH]; intros prev; [reflexivity|].
  cbn [commits count].
  change (Some (deps_of h)) with (option_map deps_of (Some h)).
  rewrite IH, commit_accounted.
  assert (X := enters_or_changes prev h).
  destruct (enters prev h), (changes_within prev h); try discriminate X;
    cbn [orb app Nat.add repeat].
  - reflexivity.
  - rewrite Nat.add_succ_r. reflexivity.
  - reflexivity.
Qed.

End RequestAccounting.

(** C3, as stated, fails.  A connected wallet on chain 1 moves to
    chain 11155111 and then to a chain that is not configured: the
    session enters the wrong-network state once and never leaves it,
    yet three switch requests are issued. *)
Lemma several_requests_one_transition :
  let on chain :=
    {| App.account := {| Wagmi.address := Some "0xA"%string;
                         Wagmi.chain := chain;
                         Wagmi.isConnected := true |};
       App.switchChain := 0%nat |} in
  let hs := [on (Some {| Wagmi.id := 1 |});
             on (Some {| Wagmi.id := 11155111 |});
             on None] in
  Forall (fun h => App.session h = App.WrongNetwork) hs
  /\ AppLog.count AppLog.enters None hs = 1%nat
  /\ App.commits None hs
     = [App.SwitchChain 2810; App.SwitchChain 2810; App.SwitchChain 2810].
Proof. repeat split; repeat constructor. Qed.

(** C3, amended.  A render issues a switch request for chain 2810
    exactly when it is a transition into the wrong-network state or
    stays in that state with a dependency of the effect (connection
    flag, chain, identity of [switchChain]) changed since the previous
    render, and then it issues exactly one.  So each transition issues
    exactly one request at the render that enters, re-renders with
    unchanged dependencies issue none, renders with the chain at the
    target issue none, and over any sequence of renders the requests are
    one per transition plus one per dependency change within the
    state. *)
Theorem switch_requests_accounted
  (prev : option App.Hooks) (h : App.Hooks) (hs : list App.Hooks) :
  App.commit (option_map App.deps_of prev) h
  = (if AppLog.enters prev h || AppLog.changes_within prev h
     then [App.SwitchChain 2810] else [])
  /\ (AppLog.enters prev h = true ->
      App.commit (option_map App.deps_of prev) h = [App.SwitchChain 2810])
  /\ (forall p, prev = Some p -> App.deps_of p = App.deps_of h ->
      App.commit (option_map App.deps_of prev) h = [])
  /\ (App.chain_id h = Some App.target ->
      App.commit (option_map App.deps_of prev) h = [])
  /\ App.commits (option_map App.deps_of prev) hs
     = repeat (App.SwitchChain 2810)
         (AppLog.count AppLog.enters prev hs
          + AppLog.count AppLog.changes_within prev hs).
Proof.
  split; [apply commit_accounted|].
  split; [intros E; rewrite commit_accounted, E; reflexivity|].
  split; [|split].
  - intros p -> E. cbn [option_map]. rewrite E. apply commit_same_deps.
  - intros E. unfold App.commit. rewrite (effect_at_target h E).
    destruct React.deps_changed; reflexivity.
  - apply commits_accounted.
Qed.

Lemma switch_requests_accounted_witness :
  let on chain_id :=
    {| App.account := {| Wagmi.address := Some "0xA"%string;
                         Wagmi.chain := Some {| Wagmi.id := chain_id |};
                         Wagmi.isConnected := true |};
       App.switchChain := 0%nat |} in
  App.commit None (on 1) = [App.SwitchChain 2810]
  /\ App.commit (Some (App.deps_of (on 1))) (on 1) = []
  /\ App.commit (Some (App.deps_of (on 1))) (on 2810) = [].
Proof.
  intros on. split; [|split].
  - destruct (switch_requests_accounted None (on 1) []) as [_ [H _]].
    apply H. reflexivity.
  - destruct (switch_requests_accounted (Some (on 1)) (on 1) [])
      as [_ [_ [H _]]].
    apply (H (on 1)); reflexivity.
  - destruct (switch_requests_accounted (Some (on 1)) (on 2810) [])
      as [_ [_ [_ [H _]]]].
    apply H. reflexivity.
Defined.

(** The effect depends on [chain]: moving from one wrong chain to
    another runs it again and issues a second request, although the
    session was already in the wrong-network state. *)
Example switch_request_on_chain_change :
  let on chain_id :=
    {| App.account := {| Wagmi.address := Some "0xA"%string;
                         Wagmi.chain := Some {| Wagmi.id := chain_id |};
                         Wagmi.isConnected := true |};
       App.switchChain := 0%nat |} in
  App.commits None [on 1; on 11155111]
  = [App.SwitchChain 2810; App.SwitchChain 2810].
Proof. reflexivity. Qed.


(** X2.  With no wallet connected, App renders the heading and the
    connect button only (no message, no balance view, no faucet view)
    and its effect issues no request. *)
Theorem App_disconnected (h : App.Hooks) :
  Wagmi.isConnected (App.account h) = false ->
  App.session h = App.Disconnected
  /\ App.render h = [App.Heading; App.ConnectButton]
  /\ App.effect h = [].
Proof.
  intros H. unfold App.session, App.render, App.effect. rewrite H.
  repeat split.
Qed.

Lemma App_disconnected_witness :
  App.render
    {| App.account := {| Wagmi.address := None; Wagmi.chain := None;
                         Wagmi.isConnected := false |};
       App.switchChain := 0%nat |}
  = [App.Heading; App.ConnectButton].
Proof.
  apply (App_disconnected
           {| App.account := {| Wagmi.address := None; Wagmi.chain := None;
                                Wagmi.isConnected := false |};
              App.switchChain := 0%nat |}).
  reflexivity.
Defined.

(* ------------------------------------------------------------------ *)
(** ** Faucet writer (components/Faucet.tsx) *)

Section FaucetGuard.
Import Faucet.

Lemma busy_flag_disables (h : Hooks) (s : State) :
  loading s = true -> disabled h s = true.
Proof.
  intros L. unfold disabled. rewrite L.
  destruct (isConnected h); reflexivity.
Qed.

Lemma enabled_not_busy (h : Hooks) (s : State) :
  disabled h s = false -> loading s = false.
Proof.
  unfold disabled. destruct (loading s); [|reflexivity].
  destruct (isConnected h); discriminate.
Qed.

Lemma step_invariant (e : Event) (w : World) :
  busy_invariant w -> busy_invariant (step e w).
Proof.
  intros [Ho Hm]. destruct e as [h| | |error]; simpl.
  - split; assumption.
  - destruct (disabled (hooks w) (state w)) eqn:D; [split; assumption|].
    apply enabled_not_busy in D.
    destruct Ho as [Ho|[_ L]]; [|congruence].
    unfold handleClaim. simpl. rewrite Ho. simpl. split; [|reflexivity].
    destruct (claimWrite_defined (hooks w)); [right; split|left]; reflexivity.
  - destruct Ho as [Ho|[Ho L]]; rewrite Ho; [split; [left|]; assumption|].
    split; simpl; [left; reflexivity | discriminate].
  - destruct Ho as [Ho|[Ho L]]; rewrite Ho; [split; [left|]; assumption|].
    split; simpl; [left; reflexivity | discriminate].
Qed.

Lemma run_invariant (es : list Event) (w : World) :
  busy_invariant w -> busy_invariant (run es w).
Proof.
  revert w. induction es as [|e es IH]; intros w Hw; [exact Hw|].
  apply (IH (step e w)), step_invariant, Hw.
Qed.

Lemma start_invariant (h : Hooks) : busy_invariant (start h).
Proof. split; [left; reflexivity | discriminate]. Qed.

Lemma reachable_invariant (h : Hooks) (es : list Event) :
  busy_invariant (run es (start h)).
Proof. apply run_invariant, start_invariant. Qed.

End FaucetGuard.

(** C5.  The click handler raises the busy flag in the very step that
    hands the write to the wallet, before any callback.  In every state
    the component reaches, at most one write is outstanding, and while
    one is, the flag is up, the button is disabled and a click changes
    nothing: no second write is issued. *)
Theorem claim_busy_guard (h0 : Faucet.Hooks) (es : list Faucet.Event) :
  let w := Faucet.run es (Faucet.start h0) in
  (Faucet.button_disabled (Faucet.view w) = false ->
     Faucet.loading (Faucet.state (Faucet.step Faucet.Click w)) = true
     /\ Faucet.button_disabled (Faucet.view (Faucet.step Faucet.Click w)) = true
     /\ (Faucet.claimWrite_defined (Faucet.hooks w) = true ->
         Faucet.outstanding (Faucet.step Faucet.Click w)
         = [Faucet.WriteContract "claim"]))
  /\ (List.length (Faucet.outstanding w) <= 1)%nat
  /\ (Faucet.outstanding w <> [] ->
      Faucet.loading (Faucet.state w) = true
      /\ Faucet.button_disabled (Faucet.view w) = true
      /\ Faucet.step Faucet.Click w = w).
Proof.
  intros w. destruct (reachable_invariant h0 es) as [Ho _]. fold w in Ho.
  split; [|split].
  - intros D. simpl. unfold Faucet.view in D. simpl in D. rewrite D. simpl.
    split; [reflexivity|]. split.
    + unfold Faucet.disabled. simpl.
      destruct (Faucet.isConnected (Faucet.hooks w)); reflexivity.
    + intros ->. apply enabled_not_busy in D.
      destruct Ho as [Ho|[_ L]]; [rewrite Ho; reflexivity | congruence].
  - destruct Ho as [Ho|[Ho _]]; rewrite Ho; simpl; lia.
  - intros Hne. destruct Ho as [Ho|[_ L]]; [contradiction|].
    assert (D := busy_flag_disables (Faucet.hooks w) _ L).
    repeat split; [exact L | exact D |].
    simpl. rewrite D. reflexivity.
Qed.

Lemma claim_busy_guard_witness :
  let h := {| Faucet.isConnected := true; Faucet.isSimulating := false;
              Faucet.isWriting := false; Faucet.claimWrite_defined := true |} in
  let w := Faucet.run [Faucet.Click] (Faucet.start h) in
  Faucet.outstanding w = [Faucet.WriteContract "claim"]
  /\ Faucet.loading (Faucet.state w) = true
  /\ Faucet.button_disabled (Faucet.view w) = true
  /\ Faucet.step Faucet.Click w = w.
Proof.
  intros h w. split; [reflexivity|].
  destruct (claim_busy_guard h [Faucet.Click]) as [_ [_ H]].
  apply H. discriminate.
Defined.

(** A second click while the claim is outstanding issues nothing, and the
    error callback re-enables the button. *)
Example claim_double_click :
  let h := {| Faucet.isConnected := true; Faucet.isSimulating := false;
              Faucet.isWriting := false; Faucet.claimWrite_defined := true |} in
  Faucet.outstanding (Faucet.run [Faucet.Click; Faucet.Click] (Faucet.start h))
  = [Faucet.WriteContract "claim"]
  /\ Faucet.button_disabled
       (Faucet.view (Faucet.run [Faucet.Click; Faucet.Click;
                                 Faucet.Failed (Faucet.Str "rejected")]
                                (Faucet.start h)))
     = false.
Proof. split; reflexivity. Qed.

(** C10.  The click handler sets the message to [''].  In every state
    the component reaches, the message is [''] and its paragraph is not
    rendered while the busy flag is up, in particular while a write is
    outstanding; and the only events after which the paragraph appears
    are the callbacks of the write. *)
Theorem message_empty_while_claiming (h0 : Faucet.Hooks) (es : list Faucet.Event) :
  let w := Faucet.run es (Faucet.start h0) in
  (forall h s, Faucet.message (fst (Faucet.handleClaim h s)) = Faucet.Str "")
  /\ (Faucet.loading (Faucet.state w) = true \/ Faucet.outstanding w <> [] ->
      Faucet.message (Faucet.state w) = Faucet.Str ""
      /\ Faucet.message_paragraph (Faucet.view w) = None)
  /\ (forall e,
        Faucet.message_paragraph (Faucet.view w) = None ->
        Faucet.message_paragraph (Faucet.view (Faucet.step e w)) <> None ->
        Faucet.outstanding w <> []
        /\ (e = Faucet.Succeeded \/ exists error, e = Faucet.Failed error)).
Proof.
  intros w. destruct (reachable_invariant h0 es) as [Ho Hm].
  fold w in Ho, Hm. split; [|split].
  - reflexivity.
  - intros H.
    assert (L : Faucet.loading (Faucet.state w) = true).
    { destruct H as [L|Hne]; [exact L|].
      destruct Ho as [Ho|[_ L]]; [contradiction | exact L]. }
    specialize (Hm L). split; [exact Hm|].
    unfold Faucet.view, Faucet.render. simpl. rewrite Hm. reflexivity.
  - intros e Hnone Hsome. unfold Faucet.view in *.
    destruct e as [h| | |error]; simpl in Hsome.
    + exfalso. apply Hsome. exact Hnone.
    + exfalso. destruct (Faucet.disabled (Faucet.hooks w) (Faucet.state w)).
      * apply Hsome. exact Hnone.
      * apply Hsome. reflexivity.
    + destruct (Faucet.outstanding w) eqn:E.
      * exfalso. apply Hsome. exact Hnone.
      * split; [discriminate | left; reflexivity].
    + destruct (Faucet.outstanding w) eqn:E.
      * exfalso. apply Hsome. exact Hnone.
      * split; [discriminate | right; exists error; reflexivity].
Qed.

Lemma message_empty_while_claiming_witness :
  let h := {| Faucet.isConnected := true; Faucet.isSimulating := false;
              Faucet.isWriting := false; Faucet.claimWrite_defined := true |} in
  let w := Faucet.run [Faucet.Click; Faucet.Succeeded; Faucet.Click]
                      (Faucet.start h) in
  Faucet.outstanding w = [Faucet.WriteContract "claim"]
  /\ Faucet.message (Faucet.state w) = Faucet.Str ""
  /\ Faucet.message_paragraph (Faucet.view w) = None.
Proof.
  intros h w. split; [reflexivity|].
  destruct (message_empty_while_claiming h
              [Faucet.Click; Faucet.Succeeded; Faucet.Click]) as [_ [H _]].
  apply H. right. discriminate.
Defined.

(** C6.  [onError] stores its argument as it is: for an [Error] without
    a reason text the message cell holds the object, not the fallback
    text the tutorial's [onError] sets; for an [Error] with a reason it
    holds the object, not the reason text.  The busy flag is cleared,
    and the button is enabled again, in both. *)
Theorem onError_stores_the_error :
  let h := {| Faucet.isConnected := true; Faucet.isSimulating := false;
              Faucet.isWriting := false; Faucet.claimWrite_defined := true |} in
  let claiming := Faucet.run [Faucet.Click] (Faucet.start h) in
  let no_reason := Faucet.run [Faucet.Failed (Faucet.ErrorObject "")] claiming in
  let reason :=
    Faucet.run [Faucet.Failed (Faucet.ErrorObject "cooldown not elapsed")] claiming in
  Faucet.message (Faucet.state no_reason) = Faucet.ErrorObject ""
  /\ Faucet.message_paragraph (Faucet.view no_reason) = Some (Faucet.ErrorObject "")
  /\ Faucet.message (Faucet.onError_tutorial (Faucet.ErrorObject "")
                       (Faucet.state claiming))
     = Faucet.Str "Claim failed"
  /\ Faucet.message_paragraph (Faucet.view reason)
     = Some (Faucet.ErrorObject "cooldown not elapsed")
  /\ Faucet.message (Faucet.onError_tutorial
                       (Faucet.ErrorObject "cooldown not elapsed")
                       (Faucet.state claiming))
     = Faucet.Str "cooldown not elapsed"
  /\ Faucet.button_disabled (Faucet.view no_reason) = false
  /\ Faucet.button_disabled (Faucet.view reason) = false.
Proof. repeat split. Qed.

(* ------------------------------------------------------------------ *)
(** ** Conversion of the raw balance ([formatUnits]) *)

Section Conversion.
Import Js Reading.

Lemma digit_cases (d : Z) :
  0 <= d < 10 ->
  d = 0 \/ d = 1 \/ d = 2 \/ d = 3 \/ d = 4 \/ d = 5 \/ d = 6 \/ d = 7 \/ d = 8 \/ d = 9.
Proof. lia. Qed.

Lemma digit_value_char (d : Z) :
  0 <= d < 10 -> digit_value (digit_char d) = Some d.
Proof.
  intros H. destruct (digit_cases d H) as [E|[E|[E|[E|[E|[E|[E|[E|[E|E]]]]]]]]];
    subst d; reflexivity.
Qed.

Lemma digit_char_code (d : Z) :
  0 <= d < 10 -> Z.of_nat (nat_of_ascii (digit_char d)) - 48 = d.
Proof.
  intros H. destruct (digit_cases d H) as [E|[E|[E|[E|[E|[E|[E|[E|[E|E]]]]]]]]];
    subst d; reflexivity.
Qed.

Lemma digit_char_not (d : Z) (c : ascii) :
  0 <= d < 10 -> digit_value c = None -> Ascii.eqb (digit_char d) c = false.
Proof.
  intros H Hc. destruct (Ascii.eqb (digit_char d) c) eqn:E; [|reflexivity].
  apply Ascii.eqb_eq in E. subst c. rewrite (digit_value_char d H) in Hc. discriminate.
Qed.

Lemma fold_written (s : chars) (a : Z) :
  fold_left (fun a c => 10 * a + (Z.of_nat (nat_of_ascii c) - 48)) s a
  = a * 10 ^ Z.of_nat (List.length s) + written s.
Proof.
  unfold written. revert a.
  induction s as [|c s IH]; intros a.
  - simpl. lia.
  - cbn [fold_left]. rewrite (IH (10 * a + _)), (IH (10 * 0 + _)).
    change (List.length (c :: s)) with (S (List.length s)).
    rewrite Nat2Z.inj_succ, Z.pow_succ_r by lia. ring.
Qed.

Lemma written_app (x y : chars) :
  written (x ++ y) = written x * 10 ^ Z.of_nat (List.length y) + written y.
Proof.
  unfold written at 1. rewrite fold_left_app. fold (written x). apply fold_written.
Qed.

Lemma written_zeros (k : nat) : written (repeat zero_char k) = 0.
Proof.
  induction k as [|k IH]; [reflexivity|].
  change (repeat zero_char (S k)) with ([zero_char] ++ repeat zero_char k).
  rewrite written_app, IH. reflexivity.
Qed.

Lemma all_digits_zeros (k : nat) : all_digits (repeat zero_char k).
Proof.
  induction k; constructor; [|assumption].
  exists 0. split; [lia | reflexivity].
Qed.

Lemma digits_value_written (s : chars) :
  all_digits s ->
  forall a, digits_value a s = Some (a * 10 ^ Z.of_nat (List.length s) + written s).
Proof.
  induction 1 as [|c s [d [Hd ->]] _ IH]; intros a.
  - cbn [digits_value List.length]. f_equal. unfold written. cbn [fold_left].
    change (Z.of_nat 0) with 0. lia.
  - cbn [digits_value]. rewrite (digit_value_char d Hd), IH.
    change (digit_char d :: s) with ([digit_char d] ++ s).
    rewrite written_app. unfold written at 2. cbn [fold_left].
    rewrite (digit_char_code d Hd). f_equal.
    change (List.length ([digit_char d] ++ s)) with (S (List.length s)).
    rewrite Nat2Z.inj_succ, Z.pow_succ_r by lia. ring.
Qed.

Lemma digits_fuel_acc (f : nat) :
  forall n acc, digits_fuel f n acc = digits_fuel f n [] ++ acc.
Proof.
  induction f as [|f IH]; intros n acc; simpl; [reflexivity|].
  destruct (n <? 10); [reflexivity|].
  rewrite (IH _ (_ :: acc)), (IH _ [_]), <- app_assoc. reflexivity.
Qed.

Lemma digits_fuel_spec (f : nat) :
  forall n, 0 <= n < 10 * 2 ^ Z.of_nat f ->
  all_digits (digits_fuel f n []) /\ written (digits_fuel f n []) = n
  /\ digits_fuel f n [] <> [].
Proof.
  assert (one : forall n, 0 <= n < 10 ->
    all_digits [digit_char (n mod 10)] /\ written [digit_char (n mod 10)] = n
    /\ [digit_char (n mod 10)] <> []).
  { intros n Hn. rewrite Z.mod_small by lia. repeat split.
    - constructor; [|constructor]. exists n. split; [lia | reflexivity].
    - unfold written. cbn [fold_left]. rewrite digit_char_code; lia.
    - discriminate. }
  induction f as [|f IH]; intros n Hn.
  - cbn [digits_fuel]. apply one. change (2 ^ Z.of_nat 0) with 1 in Hn. lia.
  - cbn [digits_fuel]. destruct (n <? 10) eqn:E.
    + apply one. apply Z.ltb_lt in E. lia.
    + apply Z.ltb_ge in E. rewrite digits_fuel_acc.
      rewrite Nat2Z.inj_succ, Z.pow_succ_r in Hn by lia.
      assert (Hq : 0 <= n / 10 < 10 * 2 ^ Z.of_nat f).
      { split; [apply Z.div_pos; lia|].
        apply Z.div_lt_upper_bound; lia. }
      destruct (IH _ Hq) as [Ha [Hw _]].
      assert (Hm := Z.mod_pos_bound n 10 ltac:(lia)).
      repeat split.
      * apply Forall_app. split; [exact Ha|].
        constructor; [|constructor]. exists (n mod 10). split; [lia | reflexivity].
      * rewrite written_app, Hw. unfold written. cbn [fold_left].
        rewrite digit_char_code by lia. cbn [List.length].
        change (Z.of_nat 1) with 1. rewrite Z.pow_1_r.
        rewrite (Z.div_mod n 10) at 3 by lia. lia.
      * intros H. apply app_eq_nil in H. destruct H as [_ H]. discriminate.
Qed.

Lemma digits_spec (n : Z) :
  0 <= n ->
  all_digits (digits n) /\ written (digits n) = n /\ digits n <> [].
Proof.
  intros Hn. apply digits_fuel_spec. split; [exact Hn|].
  rewrite Z2Nat.id by apply Z.log2_nonneg.
  destruct (Z.eq_dec n 0) as [->|Hz]; [simpl; lia|].
  destruct (Z.log2_spec n ltac:(lia)) as [_ H].
  rewrite Z.pow_succ_r in H by apply Z.log2_nonneg.
  assert (0 < 2 ^ Z.log2 n) by (apply Z.pow_pos_nonneg; [lia | apply Z.log2_nonneg]).
  lia.
Qed.

Lemma drop_zeros_spec (s : chars) :
  exists k, s = repeat zero_char k ++ drop_zeros s.
Proof.
  induction s as [|c s [k IH]]; [exists 0%nat; reflexivity|].
  cbn [drop_zeros]. destruct (Ascii.eqb c zero_char) eqn:E.
  - apply Ascii.eqb_eq in E. subst c. exists (S k). cbn [repeat app]. congruence.
  - exists 0%nat. reflexivity.
Qed.

Lemma rev_zeros (k : nat) : rev (repeat zero_char k) = repeat zero_char k.
Proof.
  induction k as [|k IH]; [reflexivity|].
  cbn [repeat rev]. rewrite IH. symmetry. apply repeat_cons.
Qed.

Lemma replace_trailing_zeros_spec (s : chars) :
  exists k, s = replace_trailing_zeros s ++ repeat zero_char k.
Proof.
  unfold replace_trailing_zeros.
  destruct (drop_zeros_spec (rev s)) as [k H]. exists k.
  rewrite <- (rev_involutive s) at 1. rewrite H at 1.
  rewrite rev_app_distr, rev_zeros. reflexivity.
Qed.

Lemma dot_is_no_digit : digit_value "."%char = None.
Proof. reflexivity. Qed.

Lemma minus_is_no_digit : digit_value "-"%char = None.
Proof. reflexivity. Qed.

Lemma split_at_dot_digits (i : chars) :
  all_digits i -> split_at_dot i = (i, None).
Proof.
  induction 1 as [|c s [d [Hd ->]] _ IH]; [reflexivity|].
  cbn [split_at_dot]. rewrite (digit_char_not d _ Hd dot_is_no_digit), IH.
  reflexivity.
Qed.

Lemma split_at_dot_fraction (i f : chars) :
  all_digits i -> split_at_dot (i ++ "."%char :: f) = (i, Some f).
Proof.
  induction 1 as [|c s [d [Hd ->]] _ IH]; [reflexivity|].
  cbn [split_at_dot app]. rewrite (digit_char_not d _ Hd dot_is_no_digit), IH.
  reflexivity.
Qed.

(** The shape of the text for a non-negative value: integer digits,
    then, if there are fraction digits left after the trailing zeros are
    removed, a dot and those digits; together they write [raw] exactly. *)
Lemma formatUnits_chars_shape (raw : Z) (d : nat) :
  0 <= raw ->
  exists I F,
    Viem.formatUnits_chars raw (Num d)
    = I ++ (if truthy F then "."%char :: F else [])
    /\ all_digits I /\ I <> [] /\ all_digits F
    /\ (List.length F <= d)%nat
    /\ written I * 10 ^ Z.of_nat d
       + written F * 10 ^ Z.of_nat (d - List.length F) = raw.
Proof.
  intros Hraw. destruct (digits_spec raw Hraw) as [Hds [Hw Hne]].
  unfold Viem.formatUnits_chars, BigInt_toString.
  replace (raw <? 0) with false by (symmetry; apply Z.ltb_ge; exact Hraw).
  assert (Hneg : match digits raw with
                 | c :: _ => Ascii.eqb c "-"%char
                 | [] => false
                 end = false).
  { destruct Hds as [|c s [x [Hx ->]] _]; [reflexivity|].
    apply (digit_char_not x _ Hx minus_is_no_digit). }
  rewrite Hneg. cbn zeta. cbn [app].
  set (display := padStart (digits raw) (Num d) zero_char).
  assert (Hdd : all_digits display).
  { apply Forall_app. split; [apply all_digits_zeros | exact Hds]. }
  assert (Hdw : written display = raw).
  { unfold display, padStart. rewrite written_app, written_zeros, Hw. lia. }
  assert (Hdl : (d <= List.length display)%nat).
  { unfold display, padStart. rewrite length_app, repeat_length.
    cbn [to_index]. lia. }
  unfold length_minus, slice_to, slice_from. cbn [to_index].
  set (cut := (List.length display - d)%nat).
  set (integer := firstn cut display).
  set (fraction := skipn cut display).
  assert (Hsplit : display = integer ++ fraction)
    by (symmetry; apply firstn_skipn).
  assert (Hfl : List.length fraction = d).
  { unfold fraction. rewrite length_skipn. unfold cut. lia. }
  rewrite Hsplit in Hdd. apply Forall_app in Hdd. destruct Hdd as [Hid Hfd].
  rewrite Hsplit, written_app, Hfl in Hdw.
  destruct (replace_trailing_zeros_spec fraction) as [k Hk].
  set (F := replace_trailing_zeros fraction) in *.
  assert (HFd : all_digits F).
  { rewrite Hk in Hfd. apply Forall_app in Hfd. tauto. }
  assert (HFl : (List.length F + k = d)%nat).
  { rewrite <- Hfl, Hk at 1. rewrite length_app, repeat_length. reflexivity. }
  assert (HFw : written fraction = written F * 10 ^ Z.of_nat k).
  { rewrite Hk, written_app, written_zeros, repeat_length. lia. }
  exists (or_else integer [zero_char]), F.
  split; [reflexivity|].
  assert (Hz : all_digits [zero_char]) by apply (all_digits_zeros 1).
  replace (d - List.length F)%nat with k by lia.
  rewrite <- HFw.
  unfold or_else. destruct integer as [|c integer]; cbn [truthy].
  - repeat split; try assumption; try discriminate; lia.
  - repeat split; try assumption; try discriminate; lia.
Qed.

(** The text [formatUnits] returns for a non-negative raw amount writes
    exactly [raw / 10^decimals]. *)
Lemma formatUnits_exact (raw : Z) (decimals : nat) :
  0 <= raw ->
  amount (Viem.formatUnits raw (Num decimals)) decimals = Some raw.
Proof.
  intros Hraw.
  destruct (formatUnits_chars_shape raw decimals Hraw)
    as [I [F [E [HI [Hne [HF [Hl Hv]]]]]]].
  unfold amount, Viem.formatUnits.
  rewrite list_ascii_of_string_of_list_ascii, E.
  destruct F as [|c F]; cbn [truthy].
  - rewrite app_nil_r, (split_at_dot_digits I HI).
    destruct I as [|i I]; [contradiction|].
    rewrite (digits_value_written _ HI). cbn [digits_value List.length].
    cbn [List.length] in Hv. rewrite <- Hv.
    replace (decimals - 0)%nat with decimals by lia.
    destruct (0 <=? decimals)%nat eqn:L; [|apply Nat.leb_gt in L; lia].
    reflexivity.
  - rewrite (split_at_dot_fraction I _ HI).
    destruct I as [|i I]; [contradiction|].
    rewrite (digits_value_written _ HI), (digits_value_written _ HF).
    apply Nat.leb_le in Hl. rewrite Hl. f_equal. lia.
Qed.

End Conversion.

(* ------------------------------------------------------------------ *)
(** ** Balance reader (components/Balances.tsx) *)

Section BalanceReader.
Import Wagmi Balances.

Lemma deps_unchanged (prev : option (option ReadContractsData))
  (cur : option ReadContractsData) :
  React.deps_changed data_eq_dec prev cur = false -> prev = Some cur.
Proof.
  unfold React.deps_changed. destruct prev as [p|]; [|discriminate].
  destruct (data_eq_dec p cur) as [->|]; [reflexivity | discriminate].
Qed.

Lemma commit_coherent (h : Hooks) (i i' : Instance) :
  coherent i -> commit h i = Some i' -> coherent i'.
Proof.
  unfold commit. intros Hi.
  destruct (React.deps_changed data_eq_dec (deps i) (data (read h))).
  - destruct (effect (data (read h))) as [|f| |] eqn:E; intros [= <-];
      intros d; cbn [deps state balance]; intros [= Hd]; rewrite Hd in E.
    + unfold effect in E. destruct (result (balanceOf_call d));
        [destruct (result (decimals_call d))|]; discriminate.
    + exact E.
  - intros [= <-]. exact Hi.
Qed.

Lemma commits_coherent (hs : list Hooks) :
  forall i i', coherent i -> commits hs i = Some i' -> coherent i'.
Proof.
  induction hs as [|h hs IH]; intros i i' Hi; cbn [commits].
  - intros [= <-]. exact Hi.
  - destruct (commit h i) as [j|] eqn:E; [|discriminate].
    apply IH, (commit_coherent h i j Hi E).
Qed.

Lemma mount_coherent : coherent mount.
Proof. intros d. discriminate. Qed.

(** A pass whose [data] the effect can format leaves the formatted text
    in the balance cell, whether the effect had to run or not. *)
Lemma commit_formatted (h : Hooks) (i : Instance) (d : ReadContractsData)
  (formatted : string) :
  coherent i ->
  data (read h) = Some d ->
  effect (Some d) = SetBalance formatted ->
  exists i', commit h i = Some i' /\ balance (state i') = formatted.
Proof.
  intros Hi Hd He. unfold commit. rewrite Hd.
  destruct (React.deps_changed data_eq_dec (deps i) (Some d)) eqn:C.
  - rewrite He. eexists. split; reflexivity.
  - exists i. split; [reflexivity|].
    apply deps_unchanged in C. specialize (Hi d C). congruence.
Qed.

Lemma render_ready (h : Hooks) (s : State) :
  isConnected (account h) = true ->
  isLoading (read h) = false ->
  isError (read h) = false ->
  render h s = BalanceCard (balance s ++ " IT").
Proof. unfold render. intros -> -> ->. reflexivity. Qed.

Lemma string_length_append (a b : string) :
  String.length (a ++ b) = (String.length a + String.length b)%nat.
Proof. induction a as [|c a IH]; simpl; [reflexivity | rewrite IH; reflexivity]. Qed.

Lemma substring_all (b : string) : substring 0 (String.length b) b = b.
Proof. induction b as [|c b IH]; simpl; [reflexivity | rewrite IH; reflexivity]. Qed.

Lemma substring_append_right (a b : string) :
  substring (String.length a) (String.length b) (a ++ b) = b.
Proof. induction a as [|c a IH]; simpl; [apply substring_all | exact IH]. Qed.

Lemma endsWith_append (a b : string) : Js.endsWith (a ++ b) b = true.
Proof.
  unfold Js.endsWith. rewrite string_length_append.
  replace (String.length b <=? String.length a + String.length b)%nat with true
    by (symmetry; apply Nat.leb_le; lia).
  replace (String.length a + String.length b - String.length b)%nat
    with (String.length a) by lia.
  rewrite substring_append_right. apply String.eqb_refl.
Qed.

(** The pass that delivers a batch whose first two calls succeeded. *)
Lemma delivered_batch_view
  (hs : list Hooks) (i : Instance) (h : Hooks)
  (raw : Z) (decimals : nat) (symbol : CallResult string) :
  commits hs mount = Some i ->
  isConnected (account h) = true ->
  isLoading (read h) = false ->
  isError (read h) = false ->
  data (read h)
  = Some {| balanceOf_call := Success raw; decimals_call := Success decimals;
            symbol_call := symbol |} ->
  exists i',
    commit h i = Some i'
    /\ view h i' = BalanceCard (Viem.formatUnits raw (Js.Num decimals) ++ " IT").
Proof.
  intros Hr Hc Hl He Hd.
  assert (Hi : coherent i) by apply (commits_coherent hs _ _ mount_coherent Hr).
  destruct (commit_formatted h i _ (Viem.formatUnits raw (Js.Num decimals)) Hi Hd eq_refl)
    as [i' [Hi' Hb]].
  exists i'. split; [exact Hi'|].
  unfold view. rewrite (render_ready h _ Hc Hl He), Hb. reflexivity.
Qed.

End BalanceReader.

(** C9.  When no wallet is connected, Balances returns [null], whatever
    its state and whatever the read hook reports (loading or error
    included). *)
Theorem Balances_null_when_disconnected (h : Balances.Hooks) (s : Balances.State) :
  Wagmi.isConnected (Balances.account h) = false ->
  Balances.render h s = Balances.Null
  /\ Balances.render h s <> Balances.LoadingBalance
  /\ Balances.render h s <> Balances.ErrorFetching.
Proof.
  intros H. unfold Balances.render. rewrite H. simpl.
  repeat split; discriminate.
Qed.

Lemma Balances_null_when_disconnected_witness :
  Balances.render
    {| Balances.account := {| Wagmi.address := None; Wagmi.chain := None;
                              Wagmi.isConnected := false |};
       Balances.read := {| Wagmi.data := None; Wagmi.isError := true;
                           Wagmi.isLoading := true |} |}
    Balances.init
  = Balances.Null.
Proof.
  apply (Balances_null_when_disconnected
           {| Balances.account := {| Wagmi.address := None; Wagmi.chain := None;
                                     Wagmi.isConnected := false |};
              Balances.read := {| Wagmi.data := None; Wagmi.isError := true;
                                  Wagmi.isLoading := true |} |}
           Balances.init).
  reflexivity.
Defined.

(** C2, as stated, fails in its "followed by the symbol": with
    1000000000000000000000, 18 decimals and [symbol()] returning "XYZ"
    the card reads "1000 IT", not "1000 XYZ". *)
Lemma balance_text_not_fetched_symbol :
  let h := {| Balances.account := {| Wagmi.address := Some "0xA"%string;
                                     Wagmi.chain := Some {| Wagmi.id := 2810 |};
                                     Wagmi.isConnected := true |};
              Balances.read :=
                {| Wagmi.data :=
                     Some {| Wagmi.balanceOf_call :=
                               Wagmi.Success 1000000000000000000000;
                             Wagmi.decimals_call := Wagmi.Success 18%nat;
                             Wagmi.symbol_call := Wagmi.Success "XYZ"%string |};
                   Wagmi.isError := false; Wagmi.isLoading := false |} |} in
  option_map (Balances.view h) (Balances.commit h Balances.mount)
  = Some (Balances.BalanceCard "1000 IT")
  /\ option_map (Balances.view h) (Balances.commit h Balances.mount)
     <> Some (Balances.BalanceCard
                (Viem.formatUnits 1000000000000000000000 (Js.Num 18)
                 ++ " " ++ "XYZ")).
Proof.
  split; [reflexivity|].
  intros H. vm_compute in H. discriminate H.
Qed.

(** C2, amended.  Once a batch in which [balanceOf] returned [raw >= 0]
    and [decimals] returned [decimals] has been delivered without
    loading or error flag, the pass leaves the card on screen with the
    text [formatUnits raw decimals] followed by the literal " IT",
    whatever the [symbol] call returned, and that numeral writes
    exactly [raw / 10^decimals].  1000000000000000000000 with 18 decimals
    gives "1000 IT" and 0 with 18 decimals gives "0 IT". *)
Theorem balance_text_exact
  (hs : list Balances.Hooks) (i : Balances.Instance) (h : Balances.Hooks)
  (raw : Z) (decimals : nat) (symbol : Wagmi.CallResult string) :
  Balances.commits hs Balances.mount = Some i ->
  Wagmi.isConnected (Balances.account h) = true ->
  Wagmi.isLoading (Balances.read h) = false ->
  Wagmi.isError (Balances.read h) = false ->
  Wagmi.data (Balances.read h)
  = Some {| Wagmi.balanceOf_call := Wagmi.Success raw;
            Wagmi.decimals_call := Wagmi.Success decimals;
            Wagmi.symbol_call := symbol |} ->
  0 <= raw ->
  exists i' text,
    Balances.commit h i = Some i'
    /\ Balances.view h i' = Balances.BalanceCard (text ++ " IT")
    /\ text = Viem.formatUnits raw (Js.Num decimals)
    /\ Reading.amount text decimals = Some raw
    /\ (raw = 1000000000000000000000 -> decimals = 18%nat ->
        Balances.view h i' = Balances.BalanceCard "1000 IT")
    /\ (raw = 0 -> decimals = 18%nat ->
        Balances.view h i' = Balances.BalanceCard "0 IT").
Proof.
  intros Hr Hc Hl He Hd Hraw.
  assert (Hi : Balances.coherent i)
    by apply (commits_coherent hs _ _ mount_coherent Hr).
  destruct (commit_formatted h i _ (Viem.formatUnits raw (Js.Num decimals)) Hi Hd eq_refl)
    as [i' [Hi' Hb]].
  assert (Hv : Balances.view h i'
               = Balances.BalanceCard (Viem.formatUnits raw (Js.Num decimals) ++ " IT")).
  { unfold Balances.view. rewrite (render_ready h _ Hc Hl He), Hb. reflexivity. }
  exists i', (Viem.formatUnits raw (Js.Num decimals)).
  split; [exact Hi'|]. split; [exact Hv|]. split; [reflexivity|].
  split; [apply formatUnits_exact, Hraw|].
  split; intros -> ->; rewrite Hv; reflexivity.
Qed.

Lemma balance_text_exact_witness :
  let h := {| Balances.account := {| Wagmi.address := Some "0xA"%string;
                                     Wagmi.chain := Some {| Wagmi.id := 2810 |};
                                     Wagmi.isConnected := true |};
              Balances.read :=
                {| Wagmi.data :=
                     Some {| Wagmi.balanceOf_call := Wagmi.Success 1500000000000000000;
                             Wagmi.decimals_call := Wagmi.Success 18%nat;
                             Wagmi.symbol_call := Wagmi.Success "IT"%string |};
                   Wagmi.isError := false; Wagmi.isLoading := false |} |} in
  exists i' text,
    Balances.commit h Balances.mount = Some i'
    /\ Balances.view h i' = Balances.BalanceCard (text ++ " IT")
    /\ text = Viem.formatUnits 1500000000000000000 (Js.Num 18)
    /\ Reading.amount text 18 = Some 1500000000000000000.
Proof.
  intros h.
  destruct (balance_text_exact [] Balances.mount h 1500000000000000000 18%nat
              (Wagmi.Success "IT"%string)
              eq_refl eq_refl eq_refl eq_refl eq_refl ltac:(lia))
    as [i' [text [H1 [H2 [H3 [H4 _]]]]]].
  exists i', text. repeat split; assumption.
Defined.

(** The body renders before the effect of the pass has run: until
    [setBalance] is applied, the card still carries the previous balance
    (here the initial ['0']). *)
Example render_before_effect :
  let h := {| Balances.account := {| Wagmi.address := Some "0xA"%string;
                                     Wagmi.chain := Some {| Wagmi.id := 2810 |};
                                     Wagmi.isConnected := true |};
              Balances.read :=
                {| Wagmi.data :=
                     Some {| Wagmi.balanceOf_call := Wagmi.Success 1500000000000000000;
                             Wagmi.decimals_call := Wagmi.Success 18%nat;
                             Wagmi.symbol_call := Wagmi.Success "IT"%string |};
                   Wagmi.isError := false; Wagmi.isLoading := false |} |} in
  Balances.render h (Balances.state Balances.mount) = Balances.BalanceCard "0 IT".
Proof. reflexivity. Qed.

Example balance_text_1_5 :
  let h := {| Balances.account := {| Wagmi.address := Some "0xA"%string;
                                     Wagmi.chain := Some {| Wagmi.id := 2810 |};
                                     Wagmi.isConnected := true |};
              Balances.read :=
                {| Wagmi.data :=
                     Some {| Wagmi.balanceOf_call := Wagmi.Success 1500000000000000000;
                             Wagmi.decimals_call := Wagmi.Success 18%nat;
                             Wagmi.symbol_call := Wagmi.Success "IT"%string |};
                   Wagmi.isError := false; Wagmi.isLoading := false |} |} in
  option_map (Balances.view h) (Balances.commit h Balances.mount)
  = Some (Balances.BalanceCard "1.5 IT").
Proof. reflexivity. Qed.

(** C4, as stated, fails: a batch whose [symbol] call failed while the
    other two succeeded, delivered without the error flag, is shown as a
    ready balance. *)
Lemma partial_batch_shown_ready :
  let d := {| Wagmi.balanceOf_call := Wagmi.Success 5;
              Wagmi.decimals_call := Wagmi.Success 0%nat;
              Wagmi.symbol_call := Wagmi.Failure "execution reverted" |} in
  let h := {| Balances.account := {| Wagmi.address := Some "0xA"%string;
                                     Wagmi.chain := Some {| Wagmi.id := 2810 |};
                                     Wagmi.isConnected := true |};
              Balances.read := {| Wagmi.data := Some d; Wagmi.isError := false;
                                  Wagmi.isLoading := false |} |} in
  Wagmi.all_succeeded d = false
  /\ option_map (Balances.view h) (Balances.commit h Balances.mount)
     = Some (Balances.BalanceCard "5 IT")
  /\ option_map (Balances.view h) (Balances.commit h Balances.mount)
     <> Some Balances.ErrorFetching.
Proof. repeat split. discriminate. Qed.

(** C4, amended.  While connected, the view is selected by the two flags
    of the read hook alone: loading when [isLoading], error when
    [isError] and not loading, the balance card otherwise; and a batch
    delivered without either flag in which [balanceOf] and [decimals]
    succeeded is shown as the card with the converted balance, whatever
    the outcome of the [symbol] call. *)
Theorem batch_view_by_flags
  (hs : list Balances.Hooks) (i : Balances.Instance) (h : Balances.Hooks) :
  Balances.commits hs Balances.mount = Some i ->
  Wagmi.isConnected (Balances.account h) = true ->
  (forall s, Balances.render h s = Balances.LoadingBalance
             <-> Wagmi.isLoading (Balances.read h) = true)
  /\ (forall s, Balances.render h s = Balances.ErrorFetching
                <-> Wagmi.isLoading (Balances.read h) = false
                    /\ Wagmi.isError (Balances.read h) = true)
  /\ (forall s, (exists text, Balances.render h s = Balances.BalanceCard text)
                <-> Wagmi.isLoading (Balances.read h) = false
                    /\ Wagmi.isError (Balances.read h) = false)
  /\ (forall raw decimals symbol,
        Wagmi.data (Balances.read h)
        = Some {| Wagmi.balanceOf_call := Wagmi.Success raw;
                  Wagmi.decimals_call := Wagmi.Success decimals;
                  Wagmi.symbol_call := symbol |} ->
        Wagmi.isLoading (Balances.read h) = false ->
        Wagmi.isError (Balances.read h) = false ->
        exists i',
          Balances.commit h i = Some i'
          /\ Balances.view h i'
             = Balances.BalanceCard (Viem.formatUnits raw (Js.Num decimals) ++ " IT")).
Proof.
  intros Hr Hc.
  assert (Hi : Balances.coherent i)
    by apply (commits_coherent hs _ _ mount_coherent Hr).
  repeat split.
  - unfold Balances.render. rewrite Hc. simpl.
    destruct (Wagmi.isLoading (Balances.read h)); [reflexivity|].
    destruct (Wagmi.isError (Balances.read h)); discriminate.
  - unfold Balances.render. rewrite Hc. intros ->. reflexivity.
  - unfold Balances.render in H. rewrite Hc in H. simpl in H.
    destruct (Wagmi.isLoading (Balances.read h)); [discriminate | reflexivity].
  - unfold Balances.render in H. rewrite Hc in H. simpl in H.
    destruct (Wagmi.isLoading (Balances.read h)); [discriminate|].
    destruct (Wagmi.isError (Balances.read h)); [reflexivity | discriminate].
  - unfold Balances.render. rewrite Hc. intros [-> ->]. reflexivity.
  - destruct H as [text H].
    unfold Balances.render in H. rewrite Hc in H. simpl in H.
    destruct (Wagmi.isLoading (Balances.read h)); [discriminate | reflexivity].
  - destruct H as [text H].
    unfold Balances.render in H. rewrite Hc in H. simpl in H.
    destruct (Wagmi.isLoading (Balances.read h)); [discriminate|].
    destruct (Wagmi.isError (Balances.read h)); [discriminate | reflexivity].
  - intros [Hl He]. eexists. apply (render_ready h s Hc Hl He).
  - intros raw decimals symbol Hd Hl He.
    destruct (commit_formatted h i _ (Viem.formatUnits raw (Js.Num decimals)) Hi Hd eq_refl)
      as [i' [Hi' Hb]].
    exists i'. split; [exact Hi'|].
    unfold Balances.view. rewrite (render_ready h _ Hc Hl He), Hb. reflexivity.
Qed.

Lemma batch_view_by_flags_witness :
  let h := {| Balances.account := {| Wagmi.address := Some "0xA"%string;
                                     Wagmi.chain := Some {| Wagmi.id := 2810 |};
                                     Wagmi.isConnected := true |};
              Balances.read :=
                {| Wagmi.data :=
                     Some {| Wagmi.balanceOf_call := Wagmi.Success 5;
                             Wagmi.decimals_call := Wagmi.Success 0%nat;
                             Wagmi.symbol_call := Wagmi.Failure "execution reverted" |};
                   Wagmi.isError := false; Wagmi.isLoading := false |} |} in
  exists i',
    Balances.commit h Balances.mount = Some i'
    /\ Balances.view h i'
       = Balances.BalanceCard (Viem.formatUnits 5 (Js.Num 0) ++ " IT").
Proof.
  intros h.
  destruct (batch_view_by_flags [] Balances.mount h eq_refl eq_refl)
    as [_ [_ [_ H]]].
  apply (H 5 0%nat (Wagmi.Failure "execution reverted")); reflexivity.
Defined.

(** C7, as stated, fails: with [symbol()] returning "XYZ" the text is
    "0 IT", which does not end with "XYZ". *)
Lemma balance_text_ignores_symbol :
  let h := {| Balances.account := {| Wagmi.address := Some "0xA"%string;
                                     Wagmi.chain := Some {| Wagmi.id := 2810 |};
                                     Wagmi.isConnected := true |};
              Balances.read :=
                {| Wagmi.data :=
                     Some {| Wagmi.balanceOf_call := Wagmi.Success 0;
                             Wagmi.decimals_call := Wagmi.Success 18%nat;
                             Wagmi.symbol_call := Wagmi.Success "XYZ"%string |};
                   Wagmi.isError := false; Wagmi.isLoading := false |} |} in
  option_map (Balances.view h) (Balances.commit h Balances.mount)
  = Some (Balances.BalanceCard "0 IT")
  /\ Js.endsWith "0 IT" "XYZ" = false.
Proof. split; reflexivity. Qed.

(** C7, amended.  For every successful batched read the text on the
    card is the converted amount followed by the literal " IT", whatever
    string the [symbol] call returned; it ends with the fetched symbol
    when that symbol is "IT". *)
Theorem balance_text_literal_symbol
  (hs : list Balances.Hooks) (i : Balances.Instance) (h : Balances.Hooks)
  (raw : Z) (decimals : nat) (symbol : string) :
  Balances.commits hs Balances.mount = Some i ->
  Wagmi.isConnected (Balances.account h) = true ->
  Wagmi.isLoading (Balances.read h) = false ->
  Wagmi.isError (Balances.read h) = false ->
  Wagmi.data (Balances.read h)
  = Some {| Wagmi.balanceOf_call := Wagmi.Success raw;
            Wagmi.decimals_call := Wagmi.Success decimals;
            Wagmi.symbol_call := Wagmi.Success symbol |} ->
  exists i' text,
    Balances.commit h i = Some i'
    /\ Balances.view h i' = Balances.BalanceCard text
    /\ text = (Viem.formatUnits raw (Js.Num decimals) ++ " IT")%string
    /\ Js.endsWith text " IT" = true
    /\ (symbol = "IT"%string -> Js.endsWith text symbol = true).
Proof.
  intros Hr Hc Hl He Hd.
  destruct (delivered_batch_view hs i h raw decimals (Wagmi.Success symbol)
              Hr Hc Hl He Hd) as [i' [Hi' Hv]].
  exists i', (Viem.formatUnits raw (Js.Num decimals) ++ " IT")%string.
  split; [exact Hi'|]. split; [exact Hv|]. split; [reflexivity|].
  split; [apply endsWith_append|].
  intros ->.
  replace (Viem.formatUnits raw (Js.Num decimals) ++ " IT")%string
    with ((Viem.formatUnits raw (Js.Num decimals) ++ " ") ++ "IT")%string.
  - apply endsWith_append.
  - generalize (Viem.formatUnits raw (Js.Num decimals)).
    intros s. induction s as [|c s IH]; simpl; [reflexivity | rewrite IH; reflexivity].
Qed.

Lemma balance_text_literal_symbol_witness :
  let h := {| Balances.account := {| Wagmi.address := Some "0xA"%string;
                                     Wagmi.chain := Some {| Wagmi.id := 2810 |};
                                     Wagmi.isConnected := true |};
              Balances.read :=
                {| Wagmi.data :=
                     Some {| Wagmi.balanceOf_call := Wagmi.Success 2500;
                             Wagmi.decimals_call := Wagmi.Success 3%nat;
                             Wagmi.symbol_call := Wagmi.Success "XYZ"%string |};
                   Wagmi.isError := false; Wagmi.isLoading := false |} |} in
  exists i' text,
    Balances.commit h Balances.mount = Some i'
    /\ Balances.view h i' = Balances.BalanceCard text
    /\ text = (Viem.formatUnits 2500 (Js.Num 3) ++ " IT")%string
    /\ Js.endsWith text " IT" = true.
Proof.
  intros h.
  destruct (balance_text_literal_symbol [] Balances.mount h 2500 3%nat "XYZ"%string
              eq_refl eq_refl eq_refl eq_refl eq_refl)
    as [i' [text [H1 [H2 [H3 [H4 _]]]]]].
  exists i', text. repeat split; assumption.
Defined.

(* ------------------------------------------------------------------ *)
(** ** Stale results (Balances over the read layer) *)

Section StaleResults.
Import Wagmi ReadLayer.

Lemma commit_deps (h : Balances.Hooks) (i i' : Balances.Instance) :
  Balances.commit h i = Some i' ->
  Balances.deps i' = Some (data (Balances.read h)).
Proof.
  unfold Balances.commit.
  destruct (React.deps_changed data_eq_dec (Balances.deps i) (data (Balances.read h))) eqn:C.
  - destruct (Balances.effect (data (Balances.read h))); intros [= <-]; reflexivity.
  - intros [= <-]. apply deps_unchanged, C.
Qed.

Lemma rerender_settled (cur : option Address) (q : Query)
  (i : Balances.Instance) (w' : World) :
  Balances.coherent i ->
  (forall k d, q = Loaded k d -> cur = Some k) ->
  rerender cur q i = Some w' ->
  settled w' /\ current w' = cur /\ query w' = q.
Proof.
  intros Hi Hq. unfold rerender.
  destruct (Balances.commit (hooks_of cur q) i) as [i'|] eqn:E; [|discriminate].
  intros [= <-]. cbn [current query instance]. repeat split.
  - apply (commit_coherent _ _ _ Hi E).
  - apply (commit_deps _ _ _ E).
  - exact Hq.
Qed.

Lemma rerender_pending (cur : option Address) (i : Balances.Instance) :
  exists i', rerender cur Pending i
             = Some {| current := cur; query := Pending; instance := i' |}.
Proof.
  unfold rerender, Balances.commit. cbn [hooks_of Balances.read data].
  destruct (React.deps_changed data_eq_dec (Balances.deps i) None);
    eexists; reflexivity.
Qed.

Lemma step_settled (e : Event) (w w' : World) :
  settled w -> step e w = Some w' -> settled w'.
Proof.
  intros Hw. destruct Hw as [Hi [Hd Hq]]. destruct e as [a|a outcome]; cbn [step].
  - destruct (option_address_eq_dec a (current w)).
    + intros [= <-]. repeat split; assumption.
    + intros H. apply rerender_settled in H; [tauto | exact Hi | discriminate].
  - destruct (option_address_eq_dec (Some a) (current w)) as [Ha|].
    + intros H. apply rerender_settled in H; [tauto | exact Hi |].
      intros k d. destruct outcome; [|discriminate].
      intros [= <- _]. symmetry. exact Ha.
    + intros [= <-]. repeat split; assumption.
Qed.

Lemma run_settled (es : list Event) :
  forall w w', settled w -> run es w = Some w' -> settled w'.
Proof.
  induction es as [|e es IH]; intros w w' Hw; cbn [run].
  - intros [= <-]. exact Hw.
  - destruct (step e w) as [w1|] eqn:E; [|discriminate].
    apply IH, (step_settled e w w1 Hw E).
Qed.

Lemma boot_settled : settled boot.
Proof.
  repeat split.
  - intros d. discriminate.
  - discriminate.
Qed.

(** What the card of the last render shows in a settled world. *)
Lemma card_of_current (w : World) (text : string) :
  settled w ->
  settled_view w = Balances.BalanceCard text ->
  exists B d formatted,
    current w = Some B /\ query w = Loaded B d
    /\ Balances.effect (Some d) = Balances.SetBalance formatted
    /\ text = (formatted ++ " IT")%string.
Proof.
  intros [Hi [Hd Hq]]. unfold settled_view, Balances.view, Balances.render.
  destruct (current w) as [B|] eqn:Hc; cbn; [|discriminate].
  destruct (query w) as [| |k d] eqn:Q; cbn; try discriminate.
  intros [= <-]. cbn in Hd.
  specialize (Hq k d eq_refl). injection Hq as <-.
  exists B, d, (Balances.balance (Balances.state (instance w))).
  repeat split. apply Hi, Hd.
Qed.

(** The pass a step runs, when it runs one. *)
Lemma step_pass (e : Event) (w w' : World) :
  step e w = Some w' ->
  match pass_of e w with
  | Some h =>
      h = hooks_of (current w') (query w')
      /\ Balances.commit h (instance w) = Some (instance w')
  | None => w' = w
  end.
Proof.
  destruct e as [a|a outcome]; cbn [step pass_of].
  - destruct (option_address_eq_dec a (current w)); [congruence|].
    unfold rerender.
    destruct (Balances.commit (hooks_of a Pending) (instance w)); [|discriminate].
    intros [= <-]. split; reflexivity.
  - destruct (option_address_eq_dec (Some a) (current w)); [|congruence].
    unfold rerender. destruct (Balances.commit _ (instance w)); [|discriminate].
    intros [= <-]. split; reflexivity.
Qed.

Lemma frames_last (h : Balances.Hooks) (i i' : Balances.Instance) :
  Balances.commit h i = Some i' ->
  last (Balances.frames h i) Balances.Null = Balances.view h i'.
Proof.
  intros H. unfold Balances.frames. rewrite H.
  destruct (String.eqb_spec (Balances.balance (Balances.state i))
                            (Balances.balance (Balances.state i'))) as [E|_].
  - cbn [last]. unfold Balances.view. f_equal.
    destruct (Balances.state i), (Balances.state i'). cbn in E. congruence.
  - reflexivity.
Qed.

End StaleResults.

(** C8, as stated, fails.  The Account goes to "0xA", whose balance 7
    is shown; it goes to "0xB" while "0xA" is being read again, and that
    late result (8) is ignored.  But when the batch for "0xB" (9)
    arrives, Balances first returns the card "7 IT", the result of
    "0xA", before its effect brings "9 IT".  Without the first result
    the card returned first is the initial "0 IT", which is not a result
    of "0xB" either. *)
Lemma stale_card_under_new_account :
  let batch raw := Some {| Wagmi.balanceOf_call := Wagmi.Success raw;
                           Wagmi.decimals_call := Wagmi.Success 0%nat;
                           Wagmi.symbol_call := Wagmi.Success "IT"%string |} in
  (exists w,
     ReadLayer.run [ReadLayer.AccountChanged (Some "0xA"%string);
                    ReadLayer.Arrived "0xA"%string (batch 7);
                    ReadLayer.AccountChanged (Some "0xB"%string);
                    ReadLayer.Arrived "0xA"%string (batch 8)] ReadLayer.boot
     = Some w
     /\ ReadLayer.current w = Some "0xB"%string
     /\ ReadLayer.shown (ReadLayer.Arrived "0xB"%string (batch 9)) w
        = [Balances.BalanceCard "7 IT"; Balances.BalanceCard "9 IT"])
  /\ (exists w,
       ReadLayer.run [ReadLayer.AccountChanged (Some "0xA"%string);
                      ReadLayer.AccountChanged (Some "0xB"%string);
                      ReadLayer.Arrived "0xA"%string (batch 8)] ReadLayer.boot
       = Some w
       /\ ReadLayer.current w = Some "0xB"%string
       /\ ReadLayer.shown (ReadLayer.Arrived "0xB"%string (batch 9)) w
          = [Balances.BalanceCard "0 IT"; Balances.BalanceCard "9 IT"]).
Proof. split; eexists; repeat split. Qed.

(** C8, amended.  In any state the application reaches with [B] as the
    Account: a result that arrives for another account [A] causes no
    render and changes nothing; the last render of every pass is the
    settled view, which is the loading line, the error line, or the card
    computed from a batch read for [B]; but the first render of the pass
    that delivers the batch of [B] is returned before the effect has run
    and is the card with the previous content of the balance cell. *)
Theorem stale_result_ignored_but_card_lags
  (es : list ReadLayer.Event) (w : ReadLayer.World)
  (A B : Wagmi.Address) (outcome : option Wagmi.ReadContractsData) :
  ReadLayer.run es ReadLayer.boot = Some w ->
  ReadLayer.current w = Some B ->
  A <> B ->
  (ReadLayer.step (ReadLayer.Arrived A outcome) w = Some w
   /\ ReadLayer.shown (ReadLayer.Arrived A outcome) w = [])
  /\ (forall e w',
        ReadLayer.step e w = Some w' ->
        ReadLayer.shown e w <> [] ->
        last (ReadLayer.shown e w) Balances.Null = ReadLayer.settled_view w')
  /\ (ReadLayer.settled_view w = Balances.LoadingBalance
      \/ ReadLayer.settled_view w = Balances.ErrorFetching
      \/ exists d formatted,
           ReadLayer.query w = ReadLayer.Loaded B d
           /\ Balances.effect (Some d) = Balances.SetBalance formatted
           /\ ReadLayer.settled_view w
              = Balances.BalanceCard (formatted ++ " IT"))
  /\ (forall d formatted,
        ReadLayer.query w = ReadLayer.Pending ->
        Balances.effect (Some d) = Balances.SetBalance formatted ->
        let old := Balances.balance (Balances.state (ReadLayer.instance w)) in
        ReadLayer.shown (ReadLayer.Arrived B (Some d)) w
        = Balances.BalanceCard (old ++ " IT")
          :: (if String.eqb old formatted then []
              else [Balances.BalanceCard (formatted ++ " IT")])).
Proof.
  intros Hr Hc Hne.
  assert (Hw : ReadLayer.settled w) by apply (run_settled es _ _ boot_settled Hr).
  assert (NE : forall T (x y : T),
            (if ReadLayer.option_address_eq_dec (Some A) (ReadLayer.current w)
             then x else y) = y).
  { intros T x y. rewrite Hc.
    destruct (ReadLayer.option_address_eq_dec (Some A) (Some B)) as [E|];
      [injection E as E; contradiction | reflexivity]. }
  split; [|split; [|split]].
  - unfold ReadLayer.shown. cbn [ReadLayer.step ReadLayer.pass_of].
    rewrite !NE. split; reflexivity.
  - intros e w' Hs Hn. unfold ReadLayer.shown in *.
    assert (P := step_pass e w w' Hs).
    destruct (ReadLayer.pass_of e w) as [h|]; [|contradiction].
    destruct P as [-> P]. rewrite (frames_last _ _ _ P). reflexivity.
  - destruct (ReadLayer.settled_view w) as [| | |text] eqn:V.
    + exfalso. unfold ReadLayer.settled_view, Balances.view, Balances.render in V.
      rewrite Hc in V. cbn in V.
      destruct (ReadLayer.query w); cbn in V; discriminate.
    + left. reflexivity.
    + right. left. reflexivity.
    + right. right.
      destruct (card_of_current w text Hw V) as [C [d [f [H1 [H2 [H3 H4]]]]]].
      rewrite Hc in H1. injection H1 as <-.
      exists d, f. repeat split; [exact H2 | exact H3 | congruence].
  - intros d formatted Hq He old.
    destruct Hw as [_ [Hd _]]. rewrite Hq in Hd. cbn in Hd.
    unfold ReadLayer.shown. cbn [ReadLayer.pass_of]. rewrite Hc.
    destruct (ReadLayer.option_address_eq_dec (Some B) (Some B)); [|contradiction].
    unfold Balances.frames, Balances.commit.
    cbn [ReadLayer.hooks_of Balances.read Wagmi.data]. rewrite Hd.
    cbn [React.deps_changed].
    destruct (Wagmi.data_eq_dec None (Some d)); [discriminate|].
    rewrite He. cbn [Balances.state Balances.balance]. fold old.
    unfold Balances.render. cbn. reflexivity.
Qed.

Lemma stale_result_ignored_but_card_lags_witness :
  let batch raw := Some {| Wagmi.balanceOf_call := Wagmi.Success raw;
                           Wagmi.decimals_call := Wagmi.Success 0%nat;
                           Wagmi.symbol_call := Wagmi.Success "IT"%string |} in
  let es := [ReadLayer.AccountChanged (Some "0xA"%string);
             ReadLayer.Arrived "0xA"%string (batch 7);
             ReadLayer.AccountChanged (Some "0xB"%string)] in
  exists w,
    ReadLayer.run es ReadLayer.boot = Some w
    /\ ReadLayer.step (ReadLayer.Arrived "0xA"%string (batch 8)) w = Some w
    /\ ReadLayer.shown (ReadLayer.Arrived "0xA"%string (batch 8)) w = [].
Proof.
  intros batch es.
  destruct (ReadLayer.run es ReadLayer.boot) as [w|] eqn:E; [|discriminate E].
  exists w. split; [reflexivity|].
  apply (stale_result_ignored_but_card_lags es w "0xA"%string "0xB"%string (batch 8) E).
  - cbv in E. injection E as <-. reflexivity.
  - discriminate.
Defined.

(** The scenario run through, render by render. *)
Example stale_result_scenario :
  let batch raw := Some {| Wagmi.balanceOf_call := Wagmi.Success raw;
                           Wagmi.decimals_call := Wagmi.Success 0%nat;
                           Wagmi.symbol_call := Wagmi.Success "IT"%string |} in
  ReadLayer.screen [ReadLayer.AccountChanged (Some "0xA"%string);
                    ReadLayer.AccountChanged (Some "0xB"%string);
                    ReadLayer.Arrived "0xA"%string (batch 7);
                    ReadLayer.Arrived "0xB"%string (batch 9)] ReadLayer.boot
  = [Balances.LoadingBalance; Balances.LoadingBalance;
     Balances.BalanceCard "0 IT"; Balances.BalanceCard "9 IT"].
Proof. reflexivity. Qed.


(* ------------------------------------------------------------------ *)
(** ** More on the session guard (App.tsx, main.tsx) *)


(** X1.  While the session stays in the wrong-network state, every
    render at which a dependency of the effect (the connection flag, the
    chain, the identity of [switchChain]) differs from the previous
    render issues one more request for chain 2810. *)
Theorem switch_request_per_dependency_change (h1 h2 : App.Hooks) :
  App.session h1 = App.WrongNetwork ->
  App.session h2 = App.WrongNetwork ->
  App.deps_of h1 <> App.deps_of h2 ->
  App.commit (Some (App.deps_of h1)) h2 = [App.SwitchChain 2810]
  /\ App.commits None [h1; h2] = [App.SwitchChain 2810; App.SwitchChain 2810].
Proof.
  intros H1 H2 Hd.
  assert (E : App.commit (Some (App.deps_of h1)) h2 = [App.SwitchChain 2810]).
  { unfold App.commit, React.deps_changed.
    destruct (App.Deps_eq_dec (App.deps_of h1) (App.deps_of h2)); [contradiction|].
    apply effect_wrong_network, H2. }
  split; [exact E|].
  cbn [App.commits]. rewrite E.
  unfold App.commit at 1. cbn [React.deps_changed].
  rewrite (effect_wrong_network h1 H1). reflexivity.
Qed.

Lemma switch_request_per_dependency_change_witness :
  let on chain_id :=
    {| App.account := {| Wagmi.address := Some "0xA"%string;
                         Wagmi.chain := Some {| Wagmi.id := chain_id |};
                         Wagmi.isConnected := true |};
       App.switchChain := 0%nat |} in
  App.commit (Some (App.deps_of (on 1))) (on 11155111) = [App.SwitchChain 2810]
  /\ App.commits None [on 1; on 11155111]
     = [App.SwitchChain 2810; App.SwitchChain 2810].
Proof.
  intros on.
  apply (switch_request_per_dependency_change (on 1) (on 11155111)).
  - reflexivity.
  - reflexivity.
  - discriminate.
Defined.

(** X3.  Over any sequence of renders, every request App issues is a
    switch to chain 2810, and there are at most as many requests as
    renders at which the guard [isConnected && chain?.id !== 2810]
    holds; a sequence without such a render issues nothing. *)
Theorem requests_bounded_by_guarded_renders
  (prev : option App.Deps) (hs : list App.Hooks) :
  Forall (fun r => r = App.SwitchChain 2810) (App.commits prev hs)
  /\ (List.length (App.commits prev hs)
      <= List.length (filter AppLog.guard hs))%nat
  /\ (Forall (fun h => AppLog.guard h = false) hs -> App.commits prev hs = []).
Proof.
  assert (A : forall hs prev,
            Forall (fun r => r = App.SwitchChain 2810) (App.commits prev hs)
            /\ (List.length (App.commits prev hs)
                <= List.length (filter AppLog.guard hs))%nat).
  { clear. intros hs. induction hs as [|h hs IH]; intros prev; cbn [App.commits filter].
    - split; [constructor | reflexivity].
    - destruct (IH (Some (App.deps_of h))) as [IH1 IH2].
      unfold App.commit, App.effect. fold (AppLog.guard h).
      destruct (React.deps_changed App.Deps_eq_dec prev (App.deps_of h));
        destruct (AppLog.guard h); cbn [app List.length]; split;
        try assumption; try (constructor; [reflexivity | assumption]); lia. }
  destruct (A hs prev) as [A1 A2]. split; [exact A1|]. split; [exact A2|].
  intros Hn.
  assert (E : filter AppLog.guard hs = []).
  { clear A A1 A2. induction Hn as [|h t Hh _ IH]; cbn [filter]; [reflexivity|].
    rewrite Hh. exact IH. }
  rewrite E in A2. destruct (App.commits prev hs); [reflexivity | simpl in A2; lia].
Qed.

(** X4.  In every state App renders the heading and the connect button
    first; it shows the wrong-network message exactly when its effect
    would ask for the switch; the balance view and the faucet view
    appear only together, and never together with the message. *)
Theorem render_message_and_views (h : App.Hooks) :
  (exists rest, App.render h = App.Heading :: App.ConnectButton :: rest)
  /\ (In App.WrongNetworkMessage (App.render h)
      <-> App.effect h = [App.SwitchChain 2810])
  /\ (In App.BalancesView (App.render h) <-> In App.FaucetView (App.render h))
  /\ ~ (In App.WrongNetworkMessage (App.render h)
        /\ In App.BalancesView (App.render h)).
Proof.
  unfold App.render, App.effect. rewrite strict_ne_negb.
  destruct (Wagmi.isConnected (App.account h));
    destruct (App.strict_eq (App.chain_id h) 2810); cbn.
  all: split; [eexists; reflexivity|].
  all: split; [split; [try tauto; intros H; repeat destruct H as [H|H];
                       try discriminate; try contradiction
                      | try tauto; try discriminate]|].
  all: split; [split; intros H; repeat destruct H as [H|H];
               try discriminate; try contradiction; tauto|].
  all: intros [H1 H2]; repeat destruct H1 as [H1|H1];
       repeat destruct H2 as [H2|H2]; try discriminate; try contradiction.
Qed.

Lemma page_render_cases
  (h : Page.Hooks) (bs : Balances.State) (fs : Faucet.State) :
  Page.render h bs fs
  = if Wagmi.isConnected (Page.account h)
    then if App.strict_eq (App.chain_id (Page.app_hooks h)) 2810
         then [Page.Heading; Page.ConnectButton;
               Page.BalancesNode (Balances.render (Page.balances_hooks h) bs);
               Page.FaucetNode (Faucet.render (Page.faucet_hooks h) fs)]
         else [Page.Heading; Page.ConnectButton; Page.WrongNetworkMessage]
    else [Page.Heading; Page.ConnectButton].
Proof.
  unfold Page.render, App.render. rewrite strict_ne_negb.
  cbn [Page.app_hooks App.account].
  destruct (Wagmi.isConnected (Page.account h));
    destruct (App.strict_eq _ 2810); reflexivity.
Qed.

(** X5.  Under App, Balances and Faucet are rendered only for a
    connected wallet on chain 2810: the [null] branch of Balances is
    never taken there, the view is the loading line, the error line or
    the card; and the button of Faucet is disabled exactly when its own
    busy flag is up or the simulation is in flight. *)
Theorem children_render_connected
  (h : Page.Hooks) (bs : Balances.State) (fs : Faucet.State) :
  (forall v, In (Page.BalancesNode v) (Page.render h bs fs) ->
     Wagmi.isConnected (Page.account h) = true
     /\ App.chain_id (Page.app_hooks h) = Some App.target
     /\ v = Balances.render (Page.balances_hooks h) bs
     /\ v <> Balances.Null)
  /\ (forall v, In (Page.FaucetNode v) (Page.render h bs fs) ->
      v = Faucet.render (Page.faucet_hooks h) fs
      /\ Faucet.button_disabled v
         = Faucet.loading fs || Page.isSimulating h)
  /\ (In Page.WrongNetworkMessage (Page.render h bs fs) ->
      (forall v, ~ In (Page.BalancesNode v) (Page.render h bs fs))
      /\ (forall v, ~ In (Page.FaucetNode v) (Page.render h bs fs))).
Proof.
  rewrite page_render_cases.
  destruct (Wagmi.isConnected (Page.account h)) eqn:Hc;
    [destruct (App.strict_eq (App.chain_id (Page.app_hooks h)) 2810) eqn:He|].
  - split; [|split].
    + intros v [H|[H|[H|[H|[]]]]]; try discriminate.
      injection H as <-. split; [reflexivity|].
      split; [apply strict_eq_true, He|]. split; [reflexivity|].
      unfold Balances.render. cbn [Page.balances_hooks Balances.account].
      rewrite Hc. cbn [negb].
      destruct (Wagmi.isLoading _); [discriminate|].
      destruct (Wagmi.isError _); discriminate.
    + intros v [H|[H|[H|[H|[]]]]]; try discriminate.
      injection H as <-. split; [reflexivity|].
      cbn [Faucet.render Faucet.button_disabled]. unfold Faucet.disabled.
      cbn [Page.faucet_hooks Faucet.isConnected Faucet.isSimulating].
      rewrite Hc. reflexivity.
    + intros [H|[H|[H|[H|[]]]]]; discriminate.
  - split; [|split].
    + intros v [H|[H|[H|[]]]]; discriminate.
    + intros v [H|[H|[H|[]]]]; discriminate.
    + intros _. split; intros v [H|[H|[H|[]]]]; discriminate.
  - split; [|split].
    + intros v [H|[H|[]]]; discriminate.
    + intros v [H|[H|[]]]; discriminate.
    + intros [H|[H|[]]]; discriminate.
Qed.

(** X6.  With the configuration of main.tsx, a connected wallet puts
    App in the ready state exactly on chain 2810, the configured Morph
    chain; on every other chain, configured or not, App is in the
    wrong-network state and asks for a switch to the chain main.tsx
    passes as [initialChain]; and every configured chain has a
    transport. *)
Theorem ready_only_on_configured_target
  (a : Wagmi.Address) (chainId : Z) (switchChain : nat) :
  let h := {| App.account := Config.connected_on a chainId;
              App.switchChain := switchChain |} in
  (chainId = Config.chain_id Config.morphTestnet ->
     App.session h = App.ReadyState /\ App.effect h = [])
  /\ (chainId <> Config.chain_id Config.morphTestnet ->
      App.session h = App.WrongNetwork
      /\ App.effect h = [App.SwitchChain (Config.chain_id Config.initialChain)])
  /\ Forall (fun c => In (Wagmi.id c) Config.transports) Config.chains
  /\ In (App.SwitchChain (Config.chain_id Config.initialChain))
        (map (fun c => App.SwitchChain (Wagmi.id c)) Config.chains).
Proof.
  intros h. split; [|split; [|split]].
  - intros ->. split; reflexivity.
  - intros Hne. cbn in Hne.
    assert (S : App.session h = App.WrongNetwork).
    { apply session_wrong_network. split; [reflexivity|].
      unfold App.chain_id, h. cbn [App.account Config.connected_on Wagmi.chain].
      unfold Config.chain_of, Config.chains. cbn [find Wagmi.id Config.as_chain
        Config.morphTestnet Config.chain_id Config.mainnet Config.sepolia].
      destruct (2810 =? chainId) eqn:E0; [apply Z.eqb_eq in E0; congruence|].
      destruct (1 =? chainId) eqn:E1;
        [apply Z.eqb_eq in E1; subst; discriminate|].
      destruct (11155111 =? chainId) eqn:E2;
        [apply Z.eqb_eq in E2; subst; discriminate|].
      discriminate. }
    split; [exact S | apply effect_wrong_network, S].
  - repeat constructor; cbn; tauto.
  - cbn. tauto.
Qed.

Lemma ready_only_on_configured_target_witness :
  App.session {| App.account := Config.connected_on "0xA"%string 1;
                 App.switchChain := 0%nat |} = App.WrongNetwork
  /\ App.session {| App.account := Config.connected_on "0xA"%string 5;
                    App.switchChain := 0%nat |} = App.WrongNetwork
  /\ App.session {| App.account := Config.connected_on "0xA"%string 2810;
                    App.switchChain := 0%nat |} = App.ReadyState.
Proof.
  split; [|split].
  - apply (ready_only_on_configured_target "0xA"%string 1 0%nat). discriminate.
  - apply (ready_only_on_configured_target "0xA"%string 5 0%nat). discriminate.
  - apply (ready_only_on_configured_target "0xA"%string 2810 0%nat). reflexivity.
Defined.

(* ------------------------------------------------------------------ *)
(** ** More on the balance reader (components/Balances.tsx) *)

Section BalancePasses.
Import Wagmi Balances.

Lemma deps_changed_iff (prev : option (option ReadContractsData))
  (cur : option ReadContractsData) :
  React.deps_changed data_eq_dec prev cur = true <-> prev <> Some cur.
Proof.
  unfold React.deps_changed. destruct prev as [p|].
  - destruct (data_eq_dec p cur) as [->|N].
    + split; [discriminate | intros H; contradiction].
    + split; [intros _ [= E]; contradiction | reflexivity].
  - split; [discriminate | reflexivity].
Qed.

Lemma list_ascii_of_string_append (a b : string) :
  list_ascii_of_string (a ++ b)
  = (list_ascii_of_string a ++ list_ascii_of_string b)%list.
Proof. induction a as [|c a IH]; cbn; [reflexivity | rewrite IH; reflexivity]. Qed.

Lemma string_append_cancel_r (a b s : string) :
  (a ++ s = b ++ s)%string -> a = b.
Proof.
  intros H. apply (f_equal list_ascii_of_string) in H.
  rewrite !list_ascii_of_string_append in H. apply app_inv_tail in H.
  rewrite <- (string_of_list_ascii_of_string a), H.
  apply string_of_list_ascii_of_string.
Qed.

End BalancePasses.

(** X8.  A render pass that completes is stable: running it again
    with the same hook values changes nothing.  And it changes the
    balance cell only when it delivers new, defined [data], to the text
    the effect formats from it; while [data] is undefined the cell keeps
    its previous text. *)
Theorem pass_stable_and_conservative
  (h : Balances.Hooks) (i i' : Balances.Instance) :
  Balances.commit h i = Some i' ->
  Balances.commit h i' = Some i'
  /\ (Wagmi.data (Balances.read h) = None ->
      Balances.state i' = Balances.state i)
  /\ (Balances.state i' <> Balances.state i ->
      exists d,
        Wagmi.data (Balances.read h) = Some d
        /\ Balances.deps i <> Some (Some d)
        /\ Balances.effect (Some d)
           = Balances.SetBalance (Balances.balance (Balances.state i'))).
Proof.
  intros H. split.
  - assert (D := commit_deps h i i' H).
    unfold Balances.commit, React.deps_changed. rewrite D.
    destruct (Wagmi.data_eq_dec _ _); [reflexivity | contradiction].
  - unfold Balances.commit in H.
    destruct (React.deps_changed Wagmi.data_eq_dec (Balances.deps i)
                (Wagmi.data (Balances.read h))) eqn:C.
    + apply deps_changed_iff in C.
      destruct (Wagmi.data (Balances.read h)) as [d|] eqn:D.
      * destruct (Balances.effect (Some d)) eqn:E; injection H as <- || discriminate H.
        -- unfold Balances.effect in E.
           destruct (Wagmi.result (Wagmi.balanceOf_call d));
             [destruct (Wagmi.result (Wagmi.decimals_call d))|]; discriminate.
        -- split; [discriminate|]. intros _. exists d. repeat split; assumption.
      * cbn in H. injection H as <-. split; [reflexivity|].
        intros N. contradiction N. reflexivity.
    + injection H as <-. split; [reflexivity|]. intros N. contradiction N. reflexivity.
Qed.

Lemma pass_stable_and_conservative_witness :
  let h := {| Balances.account := {| Wagmi.address := Some "0xA"%string;
                                     Wagmi.chain := Some {| Wagmi.id := 2810 |};
                                     Wagmi.isConnected := true |};
              Balances.read :=
                {| Wagmi.data :=
                     Some {| Wagmi.balanceOf_call := Wagmi.Success 2500;
                             Wagmi.decimals_call := Wagmi.Success 3%nat;
                             Wagmi.symbol_call := Wagmi.Success "IT"%string |};
                   Wagmi.isError := false; Wagmi.isLoading := false |} |} in
  let i' := {| Balances.state := {| Balances.balance := "2.5" |};
               Balances.deps := Some (Wagmi.data (Balances.read h)) |} in
  Balances.commit h i' = Some i'.
Proof.
  intros h i'.
  apply (pass_stable_and_conservative h Balances.mount i'). reflexivity.
Defined.

(** X9.  The card text determines the amount: for a connected wallet
    and a batch delivered without loading or error flag, two batches
    with the same [decimals] whose non-negative raw balances differ
    never give the same card. *)
Theorem distinct_amounts_distinct_cards
  (h : Balances.Hooks) (d1 d2 : Wagmi.ReadContractsData)
  (raw1 raw2 : Z) (decimals : nat) (f1 f2 : string) :
  Wagmi.isConnected (Balances.account h) = true ->
  Wagmi.isLoading (Balances.read h) = false ->
  Wagmi.isError (Balances.read h) = false ->
  Wagmi.balanceOf_call d1 = Wagmi.Success raw1 ->
  Wagmi.balanceOf_call d2 = Wagmi.Success raw2 ->
  Wagmi.decimals_call d1 = Wagmi.Success decimals ->
  Wagmi.decimals_call d2 = Wagmi.Success decimals ->
  0 <= raw1 -> 0 <= raw2 -> raw1 <> raw2 ->
  Balances.effect (Some d1) = Balances.SetBalance f1 ->
  Balances.effect (Some d2) = Balances.SetBalance f2 ->
  Balances.render h {| Balances.balance := f1 |}
  <> Balances.render h {| Balances.balance := f2 |}.
Proof.
  intros Hc Hl He B1 B2 D1 D2 H1 H2 Hne E1 E2 R.
  unfold Balances.effect in E1, E2. rewrite B1, D1 in E1. rewrite B2, D2 in E2.
  cbn in E1, E2. injection E1 as <-. injection E2 as <-.
  rewrite !(render_ready h _ Hc Hl He) in R. cbn [Balances.balance] in R.
  injection R as R. apply string_append_cancel_r in R.
  assert (A1 := formatUnits_exact raw1 decimals H1).
  assert (A2 := formatUnits_exact raw2 decimals H2).
  rewrite R in A1. congruence.
Qed.

Lemma distinct_amounts_distinct_cards_witness :
  let batch raw := {| Wagmi.balanceOf_call := Wagmi.Success raw;
                      Wagmi.decimals_call := Wagmi.Success 3%nat;
                      Wagmi.symbol_call := Wagmi.Success "IT"%string |} in
  let h := {| Balances.account := {| Wagmi.address := Some "0xA"%string;
                                     Wagmi.chain := Some {| Wagmi.id := 2810 |};
                                     Wagmi.isConnected := true |};
              Balances.read := {| Wagmi.data := Some (batch 2500);
                                  Wagmi.isError := false;
                                  Wagmi.isLoading := false |} |} in
  Balances.render h {| Balances.balance := "2.5" |}
  <> Balances.render h {| Balances.balance := "2.501" |}.
Proof.
  intros batch h.
  apply (distinct_amounts_distinct_cards h (batch 2500) (batch 2501) 2500 2501 3%nat
           "2.5" "2.501"); try reflexivity; lia.
Defined.

(* ------------------------------------------------------------------ *)
(** ** More on the conversion: whole amounts *)

Section ConversionEdges.
Import Js Reading.

Lemma digits_head_not_minus (n : Z) :
  0 <= n ->
  match digits n with
  | c :: _ => Ascii.eqb c "-"%char
  | [] => false
  end = false.
Proof.
  intros Hn. destruct (digits_spec n Hn) as [Hd _].
  destruct Hd as [|c s [x [Hx ->]] _]; [reflexivity|].
  apply (digit_char_not x _ Hx minus_is_no_digit).
Qed.

Lemma drop_zeros_zeros (k : nat) : drop_zeros (repeat zero_char k) = [].
Proof. induction k as [|k IH]; [reflexivity | exact IH]. Qed.

Lemma replace_trailing_zeros_zeros (k : nat) :
  replace_trailing_zeros (repeat zero_char k) = [].
Proof.
  unfold replace_trailing_zeros. rewrite rev_zeros, drop_zeros_zeros. reflexivity.
Qed.

(** The digits do not depend on the fuel, once there is enough of it. *)
Lemma digits_fuel_enough (f : nat) :
  forall g n,
    0 <= n < 10 * 2 ^ Z.of_nat f ->
    0 <= n < 10 * 2 ^ Z.of_nat g ->
    digits_fuel f n [] = digits_fuel g n [].
Proof.
  induction f as [|f IH]; intros g n Hf Hg.
  - change (2 ^ Z.of_nat 0) with 1 in Hf.
    destruct g as [|g]; [reflexivity|]. cbn [digits_fuel].
    replace (n <? 10) with true by (symmetry; apply Z.ltb_lt; lia). reflexivity.
  - cbn [digits_fuel]. destruct (n <? 10) eqn:E.
    + destruct g as [|g]; cbn [digits_fuel]; [reflexivity|]. rewrite E. reflexivity.
    + apply Z.ltb_ge in E. destruct g as [|g].
      * change (2 ^ Z.of_nat 0) with 1 in Hg. lia.
      * cbn [digits_fuel].
        replace (n <? 10) with false by (symmetry; apply Z.ltb_ge; lia).
        rewrite (digits_fuel_acc f), (digits_fuel_acc g). f_equal.
        rewrite Nat2Z.inj_succ, Z.pow_succ_r in Hf, Hg by lia.
        apply IH; (split; [apply Z.div_pos; lia | apply Z.div_lt_upper_bound; lia]).
Qed.

Lemma log2_fuel (n : Z) :
  0 <= n -> 0 <= n < 10 * 2 ^ Z.of_nat (Z.to_nat (Z.log2 n)).
Proof.
  intros Hn. split; [exact Hn|].
  rewrite Z2Nat.id by apply Z.log2_nonneg.
  destruct (Z.eq_dec n 0) as [->|Hz]; [cbn; lia|].
  destruct (Z.log2_spec n ltac:(lia)) as [_ H].
  rewrite Z.pow_succ_r in H by apply Z.log2_nonneg.
  assert (0 < 2 ^ Z.log2 n) by (apply Z.pow_pos_nonneg; [lia | apply Z.log2_nonneg]).
  lia.
Qed.

Lemma digits_times_ten (n : Z) :
  0 < n -> digits (10 * n) = digits n ++ [zero_char].
Proof.
  intros Hn. unfold digits.
  rewrite (digits_fuel_enough _ (S (Z.to_nat (Z.log2 n))) (10 * n)).
  - cbn [digits_fuel].
    replace (10 * n <? 10) with false by (symmetry; apply Z.ltb_ge; lia).
    rewrite digits_fuel_acc. f_equal.
    + f_equal. rewrite Z.mul_comm. apply Z.div_mul. lia.
    + rewrite Z.mul_comm, Z.mod_mul by lia. reflexivity.
  - apply log2_fuel. lia.
  - destruct (Z.log2_spec n Hn) as [_ H].
    rewrite Z.pow_succ_r in H by apply Z.log2_nonneg.
    rewrite Nat2Z.inj_succ, Z.pow_succ_r by lia.
    rewrite Z2Nat.id by apply Z.log2_nonneg. lia.
Qed.

Lemma digits_whole (k : Z) (d : nat) :
  0 < k -> digits (k * 10 ^ Z.of_nat d) = digits k ++ repeat zero_char d.
Proof.
  intros Hk. induction d as [|d IH].
  - change (10 ^ Z.of_nat 0) with 1. rewrite Z.mul_1_r, app_nil_r. reflexivity.
  - rewrite Nat2Z.inj_succ, Z.pow_succ_r by lia.
    replace (k * (10 * 10 ^ Z.of_nat d)) with (10 * (k * 10 ^ Z.of_nat d)) by ring.
    rewrite digits_times_ten.
    + rewrite IH, <- app_assoc. f_equal.
      change [zero_char] with (repeat zero_char 1). rewrite <- repeat_app.
      f_equal. lia.
    + apply Z.mul_pos_pos; [exact Hk|]. apply Z.pow_pos_nonneg; lia.
Qed.

(** A whole number of units prints as that number. *)
Lemma formatUnits_whole (k : Z) (d : nat) :
  0 <= k ->
  Viem.formatUnits_chars (k * 10 ^ Z.of_nat d) (Num d) = digits k.
Proof.
  intros Hk.
  assert (P : 0 < 10 ^ Z.of_nat d) by (apply Z.pow_pos_nonneg; lia).
  unfold Viem.formatUnits_chars, BigInt_toString.
  replace (k * 10 ^ Z.of_nat d <? 0) with false
    by (symmetry; apply Z.ltb_ge; apply Z.mul_nonneg_nonneg; lia).
  rewrite (digits_head_not_minus (k * 10 ^ Z.of_nat d))
    by (apply Z.mul_nonneg_nonneg; lia).
  cbn zeta. cbn [app].
  destruct (Z.eq_dec k 0) as [->|Hz].
  - rewrite Z.mul_0_l. change (digits 0) with [zero_char].
    unfold padStart, length_minus, slice_to, slice_from.
    cbn [to_index List.length].
    destruct d as [|d].
    + reflexivity.
    + replace (S d - 1)%nat with d by lia.
      change (repeat zero_char d ++ [zero_char])
        with (repeat zero_char d ++ repeat zero_char 1).
      rewrite <- repeat_app, repeat_length.
      replace (d + 1 - S d)%nat with 0%nat by lia.
      cbn [firstn skipn]. rewrite replace_trailing_zeros_zeros. reflexivity.
  - rewrite (digits_whole k d) by lia.
    destruct (digits_spec k Hk) as [_ [_ Hne]].
    assert (Hpad : padStart (digits k ++ repeat zero_char d) (Num d) zero_char
                   = digits k ++ repeat zero_char d).
    { unfold padStart. cbn [to_index]. rewrite length_app, repeat_length.
      replace (d - (List.length (digits k) + d))%nat with 0%nat by lia.
      reflexivity. }
    rewrite Hpad. unfold length_minus, slice_to, slice_from. cbn [to_index].
    rewrite length_app, repeat_length.
    replace (List.length (digits k) + d - d)%nat with (List.length (digits k)) by lia.
    rewrite firstn_app, firstn_all, Nat.sub_diag. cbn [firstn].
    rewrite skipn_app, skipn_all, Nat.sub_diag. cbn [skipn app].
    rewrite app_nil_r, replace_trailing_zeros_zeros.
    unfold or_else. destruct (digits k); [contradiction|].
    cbn [truthy]. apply app_nil_r.
Qed.

End ConversionEdges.

Section DeliveredBatches.
Import Wagmi Balances.

(** The pass that delivers a batch the effect can format. *)
Lemma delivered_view
  (hs : list Hooks) (i : Instance) (h : Hooks)
  (d : ReadContractsData) (formatted : string) :
  commits hs mount = Some i ->
  isConnected (account h) = true ->
  isLoading (read h) = false ->
  isError (read h) = false ->
  data (read h) = Some d ->
  effect (Some d) = SetBalance formatted ->
  exists i', commit h i = Some i' /\ view h i' = BalanceCard (formatted ++ " IT").
Proof.
  intros Hr Hc Hl He Hd Hf.
  assert (Hi : coherent i) by apply (commits_coherent hs _ _ mount_coherent Hr).
  destruct (commit_formatted h i d formatted Hi Hd Hf) as [i' [Hi' Hb]].
  exists i'. split; [exact Hi'|].
  unfold view. rewrite (render_ready h _ Hc Hl He), Hb. reflexivity.
Qed.

End DeliveredBatches.

(** X10.  A balance that is a whole number [k >= 0] of tokens, that is
    a raw amount [k * 10^decimals], is shown as the plain integer: the
    card reads [k.toString()] followed by " IT", with no decimal point,
    for every [decimals]. *)
Theorem whole_amount_card
  (hs : list Balances.Hooks) (i : Balances.Instance) (h : Balances.Hooks)
  (k : Z) (decimals : nat) (symbol : Wagmi.CallResult string) :
  Balances.commits hs Balances.mount = Some i ->
  Wagmi.isConnected (Balances.account h) = true ->
  Wagmi.isLoading (Balances.read h) = false ->
  Wagmi.isError (Balances.read h) = false ->
  Wagmi.data (Balances.read h)
  = Some {| Wagmi.balanceOf_call := Wagmi.Success (k * 10 ^ Z.of_nat decimals);
            Wagmi.decimals_call := Wagmi.Success decimals;
            Wagmi.symbol_call := symbol |} ->
  0 <= k ->
  exists i',
    Balances.commit h i = Some i'
    /\ Balances.view h i'
       = Balances.BalanceCard
           (string_of_list_ascii (Js.BigInt_toString k) ++ " IT").
Proof.
  intros Hr Hc Hl He Hd Hk.
  apply (delivered_view hs i h _ _ Hr Hc Hl He Hd).
  cbn [Balances.effect Wagmi.result Wagmi.balanceOf_call Wagmi.decimals_call].
  unfold Viem.formatUnits. rewrite (formatUnits_whole k decimals Hk).
  unfold Js.BigInt_toString.
  replace (k <? 0) with false by (symmetry; apply Z.ltb_ge; exact Hk).
  reflexivity.
Qed.

Lemma whole_amount_card_witness :
  let h := {| Balances.account := {| Wagmi.address := Some "0xA"%string;
                                     Wagmi.chain := Some {| Wagmi.id := 2810 |};
                                     Wagmi.isConnected := true |};
              Balances.read :=
                {| Wagmi.data :=
                     Some {| Wagmi.balanceOf_call := Wagmi.Success (42 * 10 ^ Z.of_nat 6);
                             Wagmi.decimals_call := Wagmi.Success 6%nat;
                             Wagmi.symbol_call := Wagmi.Success "IT"%string |};
                   Wagmi.isError := false; Wagmi.isLoading := false |} |} in
  exists i',
    Balances.commit h Balances.mount = Some i'
    /\ Balances.view h i'
       = Balances.BalanceCard
           (string_of_list_ascii (Js.BigInt_toString 42) ++ " IT").
Proof.
  intros h.
  apply (whole_amount_card [] Balances.mount h 42 6%nat (Wagmi.Success "IT"%string));
    try reflexivity.
  lia.
Defined.

(* ------------------------------------------------------------------ *)
(** ** More on the faucet writer (components/Faucet.tsx) *)

Section FaucetWrites.
Import Faucet FaucetLog.

Lemma blocked_disables (h : Hooks) (s : State) :
  blocked h = true -> disabled h s = true.
Proof.
  unfold blocked, disabled.
  destruct (isConnected h), (isSimulating h), (loading s); cbn; congruence.
Qed.

Lemma outstanding_at_most_one (w : World) :
  busy_invariant w -> (List.length (outstanding w) <= 1)%nat.
Proof. intros [[E|[E _]] _]; rewrite E; cbn; lia. Qed.

Lemma handleClaim_requests (h : Hooks) (s : State) :
  (List.length (snd (handleClaim h s)) <= 1)%nat
  /\ Forall (fun r => r = WriteContract "claim") (snd (handleClaim h s)).
Proof.
  unfold handleClaim. cbn [snd].
  destruct (claimWrite_defined h); cbn; split; try lia; repeat constructor.
Qed.

(** One event: what it issues and what it leaves outstanding. *)
Lemma step_accounting (e : Event) (w : World) :
  busy_invariant w ->
  (List.length (issued_by e w) + List.length (outstanding w)
   <= List.length (outstanding (step e w)) + (if is_callback e then 1 else 0))%nat
  /\ Forall (fun r => r = WriteContract "claim") (issued_by e w).
Proof.
  intros Hw. destruct e as [h| | |error]; cbn [issued_by is_callback step].
  - cbn. split; [lia | constructor].
  - destruct (button_disabled (render (hooks w) (state w))) eqn:D.
    + cbn. split; [lia | constructor].
    + destruct (handleClaim_requests (hooks w) (state w)) as [_ HF].
      destruct (handleClaim (hooks w) (state w)) as [s reqs].
      cbn [snd outstanding] in *. rewrite length_app. split; [lia | exact HF].
  - destruct (outstanding w) as [|r rest] eqn:Ho.
    + rewrite Ho. cbn. split; [lia | constructor].
    + cbn. split; [lia | constructor].
  - destruct (outstanding w) as [|r rest] eqn:Ho.
    + rewrite Ho. cbn. split; [lia | constructor].
    + cbn. split; [lia | constructor].
Qed.

(** Issued writes, outstanding writes and callbacks, along any run. *)
Lemma writes_accounting (es : list Event) :
  forall w, busy_invariant w ->
    (List.length (writes es w) + List.length (outstanding w)
     <= 1 + List.length (filter is_callback es))%nat
    /\ Forall (fun r => r = WriteContract "claim") (writes es w).
Proof.
  induction es as [|e es IH]; intros w Hw.
  - cbn. split; [|constructor].
    assert (H := outstanding_at_most_one w Hw). lia.
  - destruct (IH (step e w) (step_invariant e w Hw)) as [IH1 IH2].
    destruct (step_accounting e w Hw) as [S1 S2].
    cbn [writes filter]. rewrite length_app.
    split; [|apply Forall_app; split; assumption].
    destruct (is_callback e); cbn [List.length]; lia.
Qed.

End FaucetWrites.

(** X12.  Over any sequence of events of a Faucet instance, every
    request handed to the wallet is the [claim] write, and the number of
    writes issued never exceeds the number of callbacks received by
    more than one. *)
Theorem writes_bounded_by_callbacks (h0 : Faucet.Hooks) (es : list Faucet.Event) :
  (List.length (FaucetLog.writes es (Faucet.start h0))
   <= 1 + List.length (filter FaucetLog.is_callback es))%nat
  /\ Forall (fun r => r = Faucet.WriteContract "claim")
            (FaucetLog.writes es (Faucet.start h0)).
Proof.
  destruct (writes_accounting es (Faucet.start h0) (start_invariant h0)) as [A B].
  split; [|exact B]. cbn [Faucet.start Faucet.outstanding List.length] in A. lia.
Qed.

Section FaucetBlocked.
Import Faucet FaucetLog.

Lemma blocked_writes (es : list Event) :
  forall w,
    blocked (hooks w) = true ->
    outstanding w = [] ->
    Forall keeps_blocked es ->
    writes es w = [] /\ state (run es w) = state w /\ outstanding (run es w) = [].
Proof.
  induction es as [|e es IH]; intros w Hb Ho Hk; [repeat split; assumption|].
  inversion Hk as [|e' es' He Hes]; subst.
  assert (D : disabled (hooks w) (state w) = true) by apply blocked_disables, Hb.
  cbn [writes]. change (run (e :: es) w) with (run es (step e w)).
  destruct e as [h| | |error]; cbn [issued_by step].
  - cbn [keeps_blocked] in He.
    destruct (IH {| hooks := h; state := state w; outstanding := outstanding w |}
                 He Ho Hes) as [A [B C]].
    repeat split; assumption.
  - cbn [render button_disabled]. rewrite D. cbn [app]. apply IH; assumption.
  - rewrite Ho. cbn [app]. apply IH; assumption.
  - rewrite Ho. cbn [app]. apply IH; assumption.
Qed.

(** Once the busy flag is up with no write outstanding, nothing the
    component can receive brings it down. *)
Lemma stuck_run (es : list Event) :
  forall w,
    loading (state w) = true ->
    outstanding w = [] ->
    writes es w = []
    /\ state (run es w) = state w
    /\ outstanding (run es w) = [].
Proof.
  induction es as [|e es IH]; intros w L Ho; [repeat split; assumption|].
  assert (D : disabled (hooks w) (state w) = true) by apply busy_flag_disables, L.
  cbn [writes]. change (run (e :: es) w) with (run es (step e w)).
  destruct e as [h| | |error]; cbn [issued_by step].
  - destruct (IH {| hooks := h; state := state w; outstanding := outstanding w |}
                 L Ho) as [A [B C]].
    repeat split; assumption.
  - cbn [render button_disabled]. rewrite D. cbn [app]. apply IH; assumption.
  - rewrite Ho. cbn [app]. apply IH; assumption.
  - rewrite Ho. cbn [app]. apply IH; assumption.
Qed.

End FaucetBlocked.

(** X13.  As long as the hooks report no connected wallet or a
    simulation in flight, a Faucet instance never hands a write to the
    wallet and its state stays the initial one, whatever is clicked. *)
Theorem no_write_while_blocked (h0 : Faucet.Hooks) (es : list Faucet.Event) :
  FaucetLog.blocked h0 = true ->
  Forall FaucetLog.keeps_blocked es ->
  FaucetLog.writes es (Faucet.start h0) = []
  /\ Faucet.state (Faucet.run es (Faucet.start h0)) = Faucet.init
  /\ Faucet.outstanding (Faucet.run es (Faucet.start h0)) = [].
Proof.
  intros Hb Hk. apply (blocked_writes es (Faucet.start h0) Hb eq_refl Hk).
Qed.

Lemma no_write_while_blocked_witness :
  let off := {| Faucet.isConnected := false; Faucet.isSimulating := false;
                Faucet.isWriting := false; Faucet.claimWrite_defined := true |} in
  let simulating := {| Faucet.isConnected := true; Faucet.isSimulating := true;
                       Faucet.isWriting := false;
                       Faucet.claimWrite_defined := true |} in
  FaucetLog.writes [Faucet.Click; Faucet.HooksChanged simulating; Faucet.Click]
                   (Faucet.start off) = [].
Proof.
  intros off simulating.
  apply (no_write_while_blocked off
           [Faucet.Click; Faucet.HooksChanged simulating; Faucet.Click]).
  - reflexivity.
  - repeat constructor.
Defined.

(** X14.  [claimWrite] is called through [?.]: if it is undefined when
    an enabled button is clicked, the busy flag is raised and no write
    is issued, so no callback can clear the flag; from then on the
    button stays disabled with the label "Claiming..." and no write is
    ever issued, whatever happens. *)
Theorem undefined_claimWrite_sticks
  (h0 : Faucet.Hooks) (es0 es : list Faucet.Event) :
  let w := Faucet.run es0 (Faucet.start h0) in
  let w' := Faucet.run es (Faucet.step Faucet.Click w) in
  Faucet.button_disabled (Faucet.view w) = false ->
  Faucet.claimWrite_defined (Faucet.hooks w) = false ->
  FaucetLog.writes (Faucet.Click :: es) w = []
  /\ Faucet.loading (Faucet.state w') = true
  /\ Faucet.button_disabled (Faucet.view w') = true
  /\ Faucet.button_label (Faucet.view w') = "Claiming..."%string.
Proof.
  intros w w' D U.
  assert (L : Faucet.loading (Faucet.state w) = false)
    by (apply (enabled_not_busy (Faucet.hooks w)); exact D).
  destruct (reachable_invariant h0 es0) as [[Ho|[_ Ho]] _]; fold w in Ho;
    [|congruence].
  assert (S : Faucet.step Faucet.Click w
              = {| Faucet.hooks := Faucet.hooks w;
                   Faucet.state := {| Faucet.loading := true;
                                      Faucet.message := Faucet.Str "" |};
                   Faucet.outstanding := [] |}).
  { cbn [Faucet.step]. unfold Faucet.view in D. rewrite D.
    unfold Faucet.handleClaim. rewrite U, Ho. reflexivity. }
  destruct (stuck_run es (Faucet.step Faucet.Click w)) as [A [B C]];
    [rewrite S; reflexivity | rewrite S; reflexivity |].
  assert (L' : Faucet.loading (Faucet.state w') = true).
  { unfold w'. rewrite B, S. reflexivity. }
  split; [|split; [exact L'|split]].
  - cbn [FaucetLog.writes FaucetLog.issued_by]. unfold Faucet.view in D.
    rewrite D. unfold Faucet.handleClaim. rewrite U. cbn [snd app]. exact A.
  - apply busy_flag_disables, L'.
  - unfold Faucet.view, Faucet.render. cbn [Faucet.button_label].
    rewrite L'. reflexivity.
Qed.

Lemma undefined_claimWrite_sticks_witness :
  let h := {| Faucet.isConnected := true; Faucet.isSimulating := false;
              Faucet.isWriting := false; Faucet.claimWrite_defined := false |} in
  let defined := {| Faucet.isConnected := true; Faucet.isSimulating := false;
                    Faucet.isWriting := false;
                    Faucet.claimWrite_defined := true |} in
  let w' := Faucet.run [Faucet.Click; Faucet.HooksChanged defined;
                        Faucet.Succeeded; Faucet.Click] (Faucet.start h) in
  Faucet.loading (Faucet.state w') = true
  /\ Faucet.button_disabled (Faucet.view w') = true
  /\ Faucet.button_label (Faucet.view w') = "Claiming..."%string.
Proof.
  intros h defined w'.
  apply (undefined_claimWrite_sticks h []
           [Faucet.HooksChanged defined; Faucet.Succeeded; Faucet.Click]);
    reflexivity.
Defined.

(** X15.  When the outstanding claim succeeds, the success message is
    shown and the busy flag is cleared; the button is then enabled
    unless the wallet is gone or a simulation is in flight, and a new
    click clears the message and issues exactly one new write. *)
Theorem claim_cycle (h0 : Faucet.Hooks) (es : list Faucet.Event) :
  let w := Faucet.run es (Faucet.start h0) in
  let w1 := Faucet.step Faucet.Succeeded w in
  let w2 := Faucet.step Faucet.Click w1 in
  Faucet.outstanding w <> [] ->
  Faucet.outstanding w1 = []
  /\ Faucet.loading (Faucet.state w1) = false
  /\ Faucet.message_paragraph (Faucet.view w1)
     = Some (Faucet.Str "Claim successful!")
  /\ Faucet.button_disabled (Faucet.view w1) = FaucetLog.blocked (Faucet.hooks w1)
  /\ (FaucetLog.blocked (Faucet.hooks w1) = false ->
      Faucet.claimWrite_defined (Faucet.hooks w1) = true ->
      FaucetLog.issued_by Faucet.Click w1 = [Faucet.WriteContract "claim"]
      /\ Faucet.outstanding w2 = [Faucet.WriteContract "claim"]
      /\ Faucet.message_paragraph (Faucet.view w2) = None
      /\ Faucet.button_disabled (Faucet.view w2) = true).
Proof.
  intros w w1 w2 Hne.
  destruct (reachable_invariant h0 es) as [[Ho|[Ho L]] _]; fold w in Ho;
    [contradiction|]. fold w in L.
  assert (S : w1 = {| Faucet.hooks := Faucet.hooks w;
                      Faucet.state := {| Faucet.loading := false;
                                         Faucet.message :=
                                           Faucet.Str "Claim successful!" |};
                      Faucet.outstanding := [] |}).
  { unfold w1. cbn [Faucet.step]. rewrite Ho. reflexivity. }
  assert (D : Faucet.button_disabled (Faucet.view w1)
              = FaucetLog.blocked (Faucet.hooks w1)).
  { rewrite S. unfold Faucet.view, Faucet.render, Faucet.disabled, FaucetLog.blocked.
    cbn. rewrite orb_false_r. reflexivity. }
  split; [rewrite S; reflexivity|]. split; [rewrite S; reflexivity|].
  split; [rewrite S; reflexivity|]. split; [exact D|].
  intros Hb Hd. rewrite Hb in D. unfold Faucet.view in D.
  unfold w2. cbn [FaucetLog.issued_by Faucet.step]. rewrite D.
  unfold Faucet.handleClaim. rewrite Hd. cbn [snd].
  split; [reflexivity|]. rewrite S. cbn. split; [reflexivity|].
  split; [reflexivity|]. unfold Faucet.disabled. cbn.
  destruct (Faucet.isConnected (Faucet.hooks w)); reflexivity.
Qed.

Lemma claim_cycle_witness :
  let h := {| Faucet.isConnected := true; Faucet.isSimulating := false;
              Faucet.isWriting := false; Faucet.claimWrite_defined := true |} in
  let w1 := Faucet.run [Faucet.Click; Faucet.Succeeded] (Faucet.start h) in
  Faucet.outstanding w1 = []
  /\ Faucet.loading (Faucet.state w1) = false
  /\ Faucet.message_paragraph (Faucet.view w1)
     = Some (Faucet.Str "Claim successful!").
Proof.
  intros h w1.
  destruct (claim_cycle h [Faucet.Click]) as [A [B [C _]]].
  - discriminate.
  - repeat split; assumption.
Defined.
